(** * A-level results dashboard: the dataset preparer, the page layout and
      the query engine

    A shallow embedding of [app.py].  The program loads a table of
    examination results, derives a few columns once at start-up, builds the
    controls of the page from the prepared table, and then answers two kinds
    of queries over it: a pivoted table of yearly means ([update_table]) and
    per-subject series of yearly entry totals ([update_line_chart]).

    Modelling conventions.
    - A data frame is the list of its rows.  The columns the program reads
      with a fixed meaning (subject, characteristic, period, start year,
      entry count) are record fields; every other column lives in a finite
      map from the column's header to its cell, because the program computes
      those headers as strings and assigns to them by name.
    - A floating-point column holds binary64 numbers, Rocq's primitive
      floats, with their IEEE 754 arithmetic; the missing value is NaN.  An
      integer column holds 64-bit integers: a [Z] whose sums wrap around.
    - Text is kept as its UTF-8 bytes.  Text that is only compared and
      concatenated behaves the same on bytes and on characters; slices and
      [int] work character by character.
    - Python exceptions are the [Err] results of an error monad.  Statements
      that act on a whole column are passes over all rows, in the order of
      the program's statements, so the first exception raised is the one the
      program raises.
    - What belongs to the interpreter and to pandas and is not computed
      here (which characters outside ASCII are white space or digits, the
      grammar of numbers in [pd.to_numeric]) is a parameter. *)

From Stdlib Require Import QArith Ascii String Floats.
From stdpp Require Import gmap strings list fin_maps pretty sorting.

Local Open Scope string_scope.
Local Open Scope Z_scope.

(** Decimal numerals stand for the float64 nearest to them. *)
Set Warnings "-inexact-float".

(** ** Exceptions *)

Inductive error := KeyError | ValueError | TypeError | IndexError.

Inductive result (A : Type) : Type :=
  | Ok (a : A)
  | Err (e : error).
Arguments Ok {A} a.
Arguments Err {A} e.

#[global] Instance result_ret : MRet result := @Ok.
#[global] Instance result_bind : MBind result := λ A B f m,
  match m with Ok a => f a | Err e => Err e end.
#[global] Instance result_fmap : FMap result := λ A B f m,
  match m with Ok a => Ok (f a) | Err e => Err e end.

(** ** Strings: slices, [split], [int] and [str] *)

Module Str.

(** A character is a byte that is no continuation byte of UTF-8, together
    with the continuation bytes that follow it. *)
Definition is_continuation (c : ascii) : bool :=
  let n := nat_of_ascii c in ((128 <=? n) && (n <? 192))%nat.

(** [len(s)]: the number of characters. *)
Fixpoint len (s : string) : nat :=
  match s with
  | "" => 0%nat
  | String c s' => if is_continuation c then len s' else S (len s')
  end.

(** [s[:n]]: the first [n] characters. *)
Fixpoint slice_to (n : nat) (s : string) : string :=
  match s with
  | "" => ""
  | String c s' =>
      if is_continuation c then String c (slice_to n s')
      else match n with
           | O => ""
           | S n' => String c (slice_to n' s')
           end
  end.

(** [s[n:]]: what follows the first [n] characters. *)
Fixpoint slice_from (n : nat) (s : string) : string :=
  match s with
  | "" => ""
  | String c s' =>
      if is_continuation c then slice_from n s'
      else match n with
           | O => s
           | S n' => slice_from n' s'
           end
  end.

(** [s.split(sep)] for a one-character separator: the pieces between the
    separators, empty pieces included. *)
Fixpoint split_go (sep : ascii) (cur : string) (s : string) : list string :=
  match s with
  | "" => [String.rev cur]
  | String c s' =>
      if Ascii.eqb c sep then String.rev cur :: split_go sep "" s'
      else split_go sep (String c cur) s'
  end.

Definition split (sep : ascii) (s : string) : list string := split_go sep "" s.

(** [l[i]], raising [IndexError] out of range. *)
Definition item {A} (l : list A) (i : nat) : result A :=
  match l !! i with Some a => Ok a | None => Err IndexError end.

(** The characters of a string, each with its bytes. *)
Definition starts_inside (s : string) : bool :=
  match s with String c _ => is_continuation c | "" => false end.

Fixpoint chars (s : string) : list string :=
  match s with
  | "" => []
  | String c s' =>
      match chars s' with
      | ch :: rest =>
          if starts_inside ch then String c ch :: rest else String c "" :: ch :: rest
      | [] => [String c ""]
      end
  end.

(** What [int] has to know of the characters outside ASCII: which of them
    are white space and which are decimal digits, with their values.  The
    tables are the interpreter's. *)
Record Unicode := mkUnicode {
  isspace : string → bool;
  todecimal : string → option Z
}.

Definition is_ascii (c : ascii) : bool := (nat_of_ascii c <? 128)%nat.

(** The first step of [int] on a string: a character of ASCII stays, white
    space outside ASCII becomes a blank, a decimal digit outside ASCII
    becomes the ASCII digit of its value, and any other character makes the
    literal invalid. *)
Definition ascii_of (u : Unicode) (ch : string) : option ascii :=
  match ch with
  | String c "" =>
      if is_ascii c then Some c
      else if isspace u ch then Some " "%char
      else d ← todecimal u ch;
           if decide (0 ≤ d ≤ 9) then Some (ascii_of_nat (48 + Z.to_nat d)) else None
  | _ =>
      if isspace u ch then Some " "%char
      else d ← todecimal u ch;
           if decide (0 ≤ d ≤ 9) then Some (ascii_of_nat (48 + Z.to_nat d)) else None
  end.

Fixpoint to_ascii (u : Unicode) (chs : list string) : option string :=
  match chs with
  | [] => Some ""
  | ch :: rest => c ← ascii_of u ch; s ← to_ascii u rest; Some (String c s)
  end.

(** The white space the integer parser strips: tab, line feed, vertical tab,
    form feed, carriage return and blank. *)
Definition is_space (c : ascii) : bool :=
  let n := nat_of_ascii c in
  ((9 <=? n) && (n <=? 13) || (n =? 32))%nat.

Fixpoint lstrip (s : string) : string :=
  match s with
  | String c s' => if is_space c then lstrip s' else s
  | "" => ""
  end.

Definition strip (s : string) : string :=
  String.rev (lstrip (String.rev (lstrip s))).

Definition digit_of (c : ascii) : option Z :=
  let n := Z.of_nat (nat_of_ascii c) in
  if (48 <=? n) && (n <=? 57) then Some (n - 48) else None.

(** Decimal digits, single underscores allowed between two digits.
    [after_digit] tells whether the previous character was a digit. *)
Fixpoint digits (acc : Z) (after_digit : bool) (s : string) : option Z :=
  match s with
  | "" => if after_digit then Some acc else None
  | String c s' =>
      match digit_of c with
      | Some d => digits (10 * acc + d) true s'
      | None =>
          if Ascii.eqb c "_" && after_digit then digits acc false s' else None
      end
  end.

(** The integer parser on ASCII text: surrounding white space, an optional
    sign and a decimal literal; anything else raises [ValueError]. *)
Definition parse (s : string) : result Z :=
  let body :=
    match strip s with
    | String "-" s' => option_map Z.opp (digits 0 false s')
    | String "+" s' => digits 0 false s'
    | s' => digits 0 false s'
    end in
  match body with Some n => Ok n | None => Err ValueError end.

(** [int(s)] for a string. *)
Definition int (u : Unicode) (s : string) : result Z :=
  match to_ascii u (chars s) with
  | Some t => parse t
  | None => Err ValueError
  end.

(** [str(n)] for an integer. *)
Definition str (n : Z) : string := pretty n.

End Str.

(** ** Numbers *)

(** What a computation on 64-bit integers leaves of an integer: its value
    modulo 2^64, between -2^63 and 2^63 - 1. *)
Definition wrap64 (z : Z) : Z := (z + 2 ^ 63) `mod` 2 ^ 64 - 2 ^ 63.

(** The float64 of a 64-bit integer: the nearest one, ties to even. *)
Definition of_int (n : Z) : float :=
  if decide (0 ≤ n) then of_uint63 (Uint63.of_Z n)
  else if decide (n = - 2 ^ 63) then (- 0x1p63)%float
  else (- of_uint63 (Uint63.of_Z (- n)))%float.

(** ** Data model *)

(** A cell of a column that is not one of the typed record fields: a float
    (NaN is the missing value) or a piece of text the reader could not turn
    into a number. *)
Inductive cell :=
  | Num (x : float)
  | Text (s : string).

(** A cell of the period column as [read_csv] delivers it: an integer when
    the whole column is numeric, text otherwise, or nothing. *)
Inductive period :=
  | PInt (n : Z)
  | PText (s : string)
  | PMissing.

(** A cell of the entry-count column: a 64-bit integer, or text when the
    column holds something that is no number. *)
Inductive count :=
  | CInt (n : Z)
  | CText (s : string).

(** A row as [read_csv] delivers it.  [raw_cells] holds the columns other
    than the four above it, the six percentage columns among them. *)
Record RawRow := mkRawRow {
  raw_subject_name : string;
  raw_characteristic_value : string;
  raw_time_period : period;
  raw_entry_count : count;
  raw_cells : gmap string cell
}.

(** A row of the frame while it is prepared: the period columns exist, the
    entry count is still as it was read. *)
Record Draft := mkDraft {
  draft_subject : string;
  draft_characteristic : string;
  draft_period : string;
  draft_formatted : string;
  draft_year : Z;
  draft_count : count;
  draft_cells : gmap string cell
}.

(** A row of [df_table] as the layout and the callbacks see it.  The
    columns the loop of lines 23-26 rewrites and adds live in [cells]. *)
Record Row := mkRow {
  subject_name : string;
  characteristic_value : string;
  time_period : string;
  formatted_time_period : string;
  start_year : Z;
  entry_count : Z;
  cells : gmap string cell
}.

Definition set_cell (name : string) (c : cell) (d : Draft) : Draft :=
  mkDraft (draft_subject d) (draft_characteristic d) (draft_period d)
          (draft_formatted d) (draft_year d) (draft_count d)
          (<[name := c]> (draft_cells d)).

(** Reading a cell as a float operand. *)
Definition float_cell (d : Draft) (name : string) : result float :=
  match draft_cells d !! name with
  | Some (Num x) => Ok x
  | Some (Text _) => Err TypeError
  | None => Err KeyError
  end.

(** Reading the entry count as an operand of a product with a float. *)
Definition count_operand (c : count) : result float :=
  match c with
  | CInt n => Ok (of_int n)
  | CText _ => Err TypeError
  end.

(** A [for] loop threading the data frame through its body. *)
Fixpoint for_each {A S} (body : A → S → result S) (xs : list A) (s : S) : result S :=
  match xs with
  | [] => Ok s
  | x :: xs' => s' ← body x s; for_each body xs' s'
  end.

(** ** Dataset preparer (lines 9-26) *)

Definition percentage_columns : list string :=
  [ "perc_astar_grade_achieved";
    "perc_astar_a_grade_achieved";
    "perc_astar_b_grade_achieved";
    "perc_astar_c_grade_achieved";
    "perc_astar_d_grade_achieved";
    "perc_astar_e_grade_achieved" ].

(** [f"abs_{col.split('_')[1]}_{col.split('_')[2]}_grade_achieved"] *)
Definition abs_col_name (col : string) : result string :=
  a ← Str.item (Str.split "_" col) 1;
  b ← Str.item (Str.split "_" col) 2;
  mret ("abs_" +:+ a +:+ "_" +:+ b +:+ "_grade_achieved").

(** Line 10, [.astype(str)] on the period column: an integer becomes its
    decimal text, text stays, and a missing cell stays missing. *)
Definition astype_str (v : period) : option string :=
  match v with
  | PInt n => Some (Str.str n)
  | PText s => Some s
  | PMissing => None
  end.

(** [lambda x: f"{x[:4]}/{x[4:]}"] *)
Definition format_period (x : string) : string :=
  Str.slice_to 4 x +:+ "/" +:+ Str.slice_from 4 x.

(** Line 11 on one row: the lambda slices its argument, which a missing
    cell (a float) does not allow. *)
Definition format_row (rr : RawRow) : result (RawRow * string * string) :=
  match astype_str (raw_time_period rr) with
  | Some x => Ok (rr, x, format_period x)
  | None => Err TypeError
  end.

(** The columns lines 10-12 assign; they live in the typed fields, and a
    cell read under one of their headers is overwritten. *)
Definition assigned_columns : list string :=
  ["time_period"; "formatted_time_period"; "start_year"].

(** What the interpreter and pandas contribute: the character tables of
    [int] and the numeric-literal grammar of [pd.to_numeric], which gives
    NaN for what is no number. *)
Record Library := mkLibrary {
  unicode : Str.Unicode;
  parse_number : string → float
}.

Section Preparer.

Variable lib : Library.

(** Line 12 on one row. *)
Definition year_row (formatted : RawRow * string * string) : result Draft :=
  let '(rr, x, f) := formatted in
  y ← Str.int (unicode lib) (Str.slice_to 4 x);
  mret (mkDraft (raw_subject_name rr) (raw_characteristic_value rr) x f y
                (raw_entry_count rr)
                (foldr delete (raw_cells rr) assigned_columns)).

(** [pd.to_numeric(_, errors='coerce')] on one cell. *)
Definition to_numeric (c : cell) : float :=
  match c with
  | Num x => x
  | Text s => parse_number lib s
  end.

(** Line 24 on one row. *)
Definition coerce_row (col : string) (d : Draft) : result Draft :=
  match draft_cells d !! col with
  | Some c => Ok (set_cell col (Num (to_numeric c)) d)
  | None => Err KeyError
  end.

(** Line 26 on one row. *)
Definition absolute_row (col abs_col : string) (d : Draft) : result Draft :=
  x ← float_cell d col;
  n ← count_operand (draft_count d);
  mret (set_cell abs_col (Num (x / 100 * n)%float) d).

(** The body of the loop of lines 23-26. *)
Definition derive_column (col : string) (df : list Draft) : result (list Draft) :=
  df1 ← mapM (coerce_row col) df;
  abs_col ← abs_col_name col;
  mapM (absolute_row col abs_col) df1.

(** The frame the rest of the program works on.  The loop has used every
    entry count as a number, so the column is one of integers. *)
Definition finish (d : Draft) : result Row :=
  match draft_count d with
  | CInt n =>
      Ok (mkRow (draft_subject d) (draft_characteristic d) (draft_period d)
                (draft_formatted d) (draft_year d) n (draft_cells d))
  | CText _ => Err TypeError
  end.

Definition prepare (raw : list RawRow) : result (list Row) :=
  formatted ← mapM format_row raw;
  years ← mapM year_row formatted;
  df ← for_each derive_column percentage_columns years;
  mapM finish df.

End Preparer.

(** The headers of the derived columns, as the loop computes them. *)
Definition absolute_columns : list string :=
  [ "abs_astar_grade_grade_achieved";
    "abs_astar_a_grade_achieved";
    "abs_astar_b_grade_achieved";
    "abs_astar_c_grade_achieved";
    "abs_astar_d_grade_achieved";
    "abs_astar_e_grade_achieved" ].

(** ** Data frames produced by a query *)

(** A row or column label: a header or an integer key. *)
Inductive label :=
  | LStr (s : string)
  | LInt (n : Z).

#[global] Instance label_eq_dec : EqDecision label.
Proof. solve_decision. Defined.

(** A cell of a derived frame or of a record handed to the page. *)
Inductive value :=
  | VStr (s : string)
  | VInt (n : Z)
  | VFloat (x : float).

(** A frame with row labels [I], column labels [C] and its cells row by
    row. *)
Record Frame (I C : Type) := mkFrame {
  index : list I;
  columns : list C;
  data : list (list value)
}.
Arguments mkFrame {I C} index columns data.
Arguments index {I C} _.
Arguments columns {I C} _.
Arguments data {I C} _.

Definition label_value (l : label) : value :=
  match l with LStr s => VStr s | LInt n => VInt n end.

(** [str(label)] *)
Definition label_str (l : label) : string :=
  match l with LStr s => s | LInt n => Str.str n end.

(** *** Grouping *)

(** The distinct keys in ascending order, as [groupby] (with its default
    [sort=True]) orders the groups. *)
Fixpoint insert_key (k : Z) (ks : list Z) : list Z :=
  match ks with
  | [] => [k]
  | k' :: ks' =>
      if decide (k < k') then k :: ks
      else if decide (k = k') then ks
      else k' :: insert_key k ks'
  end.

Definition group_keys (ks : list Z) : list Z := foldr insert_key [] ks.

(** [df.groupby(key)]: each key with its rows, in their original order. *)
Definition groupby {A} (key : A → Z) (df : list A) : list (Z * list A) :=
  (λ k, (k, filter (λ r, key r = k) df)) <$> group_keys (key <$> df).

(** *** Aggregates *)

(** One turn of the loop of the grouped mean of a float column: a missing
    value is passed over; any other is counted and added to the running sum
    by compensated summation.  The state is the number of values seen, the
    sum and the compensation, which is reset when an infinite value has
    made it NaN. *)
Definition mean_step (st : Z * float * float) (val : float) : Z * float * float :=
  let '(nobs, sumx, compensation) := st in
  if is_nan val then st
  else
    let y := (val - compensation)%float in
    let t := (sumx + y)%float in
    let c := (t - sumx - y)%float in
    (nobs + 1, t, if is_nan c then 0%float else c).

(** [mean()] of a group of a float column: the sum divided by the number of
    values that are not missing; the mean of nothing is missing. *)
Definition mean (xs : list float) : float :=
  let '(nobs, sumx, _) := foldl mean_step (0, 0%float, 0%float) xs in
  if decide (nobs = 0) then nan else (sumx / of_int nobs)%float.

(** [sum()] of a group of a 64-bit integer column: every addition wraps. *)
Definition isum (xs : list Z) : Z := foldl (λ acc x, wrap64 (acc + x)) 0 xs.

(** *** Frame operations *)

(** [df.T] *)
Definition transpose {I C} (f : Frame I C) : Frame C I :=
  mkFrame (columns f) (index f)
    ((λ j, (λ row, default (VFloat nan) (row !! j)) <$> data f)
       <$> seq 0 (length (columns f))).

(** [df.reset_index()] on a frame whose index has no name: the old index
    becomes the first column and the rows are numbered.  The new column is
    headed ["index"], or ["level_0"] when that header is taken; inserting a
    header that exists raises [ValueError]. *)
Definition reset_index (f : Frame label label) : result (Frame label label) :=
  let head := if decide (LStr "index" ∈ columns f) then LStr "level_0" else LStr "index" in
  if decide (head ∈ columns f) then Err ValueError
  else Ok (mkFrame (LInt ∘ Z.of_nat <$> seq 0 (length (index f)))
                   (head :: columns f)
                   (zip_with (λ l row, label_value l :: row) (index f) (data f))).

(** [df.rename(columns={old: new})] *)
Definition rename_column {I} (old new : label) (f : Frame I label) : Frame I label :=
  mkFrame (index f) ((λ c, if decide (c = old) then new else c) <$> columns f) (data f).

(** [df.columns = df.columns.map(g)] *)
Definition map_columns {I C D} (g : C → D) (f : Frame I C) : Frame I D :=
  mkFrame (index f) (g <$> columns f) (data f).

(** A Python [dict] built from key-value pairs: a later pair replaces an
    earlier one with the same key. *)
Definition dict (kvs : list (string * value)) : gmap string value :=
  foldl (λ m kv, <[kv.1 := kv.2]> m) ∅ kvs.

(** [df.to_dict('records')] *)
Definition to_dict_records {I} (f : Frame I string) : list (gmap string value) :=
  (λ row, dict (zip (columns f) row)) <$> data f.

(** ** Query engine *)

(** The value of the subject filter as a callback receives it: one subject
    (a string) or a list of subjects. *)
Inductive subjects_arg :=
  | Scalar (s : string)
  | Several (l : list string).

(** [series.isin(values)] accepts list-likes only; a string raises
    [TypeError]. *)
Definition isin (values : subjects_arg) : result (list string) :=
  match values with
  | Several l => Ok l
  | Scalar _ => Err TypeError
  end.

(** The rows kept by the boolean mask of both callbacks. *)
Definition mask (start_date end_date : Z) (selected_characteristic : string)
    (subjects : list string) (r : Row) : Prop :=
  start_date ≤ start_year r ∧ start_year r ≤ end_date ∧
  characteristic_value r = selected_characteristic ∧
  subject_name r ∈ subjects.

#[global] Instance mask_dec s e c l r : Decision (mask s e c l r).
Proof. unfold mask. apply _. Defined.

(** Reading a numeric column by its header: the entry count is the typed
    field, seen as the float64 the mean makes of it; any other header is
    looked up among the cells. *)
Definition column (name : string) (r : Row) : result cell :=
  if decide (name = "entry_count") then Ok (Num (of_int (entry_count r)))
  else match cells r !! name with
       | Some c => Ok c
       | None => Err KeyError
       end.

(** [df[['start_year'] + cols]]: the key and the selected cells of every
    row; an absent header raises [KeyError]. *)
Definition select_columns (cols : list string) (df : list Row) : result (list (Z * list cell)) :=
  mapM (λ r, cs ← mapM (λ c, column c r) cols; mret (start_year r, cs)) df.

(** A cell as an operand of a numeric aggregate; text raises [TypeError]. *)
Definition as_float (c : cell) : result float :=
  match c with
  | Num x => Ok x
  | Text _ => Err TypeError
  end.

(** [.groupby('start_year').mean()]: one row per year, in ascending order,
    one column per selected header. *)
Definition groupby_mean (cols : list string) (sel : list (Z * list cell)) :
    result (Frame label label) :=
  nums ← mapM (λ row, xs ← mapM as_float row.2; mret (row.1, xs)) sel;
  let groups := groupby fst nums in
  mret (mkFrame (LInt ∘ fst <$> groups) (LStr <$> cols)
         ((λ g, (λ j, VFloat (mean ((λ row, default nan (row.2 !! j)) <$> g.2)))
                  <$> seq 0 (length cols)) <$> groups)).

(** A column descriptor of the table component. *)
Record ColumnSpec := mkColumnSpec { name : string; id : string }.

Definition base_columns : list string := ["entry_count"].

(** The table callback (lines 115-144).  The dates are the integers the year
    dropdowns offer, so [int(start_date)] is [start_date].  The first
    component of the result is [table_data.to_dict('records')], the second
    the column descriptors. *)
Definition update_table (df_table : list Row) (start_date end_date : Z)
    (indicator_type selected_characteristic : string)
    (selected_subject : subjects_arg) :
    result (list (gmap string value) * list ColumnSpec) :=
  subjects ← isin selected_subject;
  let filtered_df :=
    filter (mask start_date end_date selected_characteristic subjects) df_table in
  selected_columns ←
    (if decide (indicator_type = "percentage") then mret percentage_columns
     else mapM abs_col_name percentage_columns);
  let all_columns := (base_columns ++ selected_columns)%list in
  sel ← select_columns all_columns filtered_df;
  means ← groupby_mean all_columns sel;
  table_data ← reset_index (transpose means);
  let table_data := rename_column (LStr "index") (LStr "Indicator") table_data in
  let table_data := map_columns label_str table_data in
  let table_columns := (λ col, mkColumnSpec col col) <$> columns table_data in
  mret (to_dict_records table_data, table_columns).

(** One line of the chart. *)
Record Trace := mkTrace {
  trace_x : list Z;
  trace_y : list Z;
  trace_type : string;
  trace_name : string
}.

Record Layout := mkLayout {
  title : string;
  xaxis_title : string;
  yaxis_title : string;
  template : string
}.

Record Figure := mkFigure {
  figure_data : list Trace;
  figure_layout : Layout
}.

(** [.groupby('start_year', as_index=False)['entry_count'].sum()] *)
Definition groupby_sum (df : list Row) : list (Z * Z) :=
  (λ g, (g.1, isum (entry_count <$> g.2))) <$> groupby start_year df.

(** The chart callback (lines 156-192).  A subject filter that is not a
    list is wrapped in one before anything else happens. *)
Definition update_line_chart (df_table : list Row) (start_date end_date : Z)
    (selected_subjects : subjects_arg) (selected_characteristic : string) :
    result Figure :=
  let selected_subjects :=
    match selected_subjects with
    | Several l => l
    | Scalar s => [s]
    end in
  let filtered_df :=
    filter (mask start_date end_date selected_characteristic selected_subjects) df_table in
  let data_traces :=
    (λ subject,
       let subject_df := filter (λ r, subject_name r = subject) filtered_df in
       let aggregated_df := groupby_sum subject_df in
       mkTrace aggregated_df.*1 aggregated_df.*2 "line"
               (subject +:+ " (" +:+ selected_characteristic +:+ ")"))
      <$> selected_subjects in
  mret (mkFigure data_traces
          (mkLayout ("Entries Count Over Time for Selected Subjects ("
                       +:+ selected_characteristic +:+ ")")
                    "Year" "Entry Count" "plotly_white")).


(** ** The preparer seen from one row

    The program works column by column; the statements below about single
    rows are phrased with the same steps taken row by row. *)

Section PreparerRows.

Variable lib : Library.

(** One turn of the loop seen from a single row. *)
Definition derive_row (col : string) (d : Draft) : result Draft :=
  d1 ← coerce_row lib col d;
  abs_col ← abs_col_name col;
  absolute_row col abs_col d1.

(** The whole preparation of one row. *)
Definition prepare_row (rr : RawRow) : result Row :=
  formatted ← format_row rr;
  d ← year_row lib formatted;
  d' ← for_each derive_row percentage_columns d;
  finish d'.

(** A raw row the preparer accepts: its period is there and its first four
    characters read as an integer, its entry count is an integer, and the
    six percentage columns are there. *)
Definition readable (rr : RawRow) : Prop :=
  (∃ x y, astype_str (raw_time_period rr) = Some x ∧
          Str.int (unicode lib) (Str.slice_to 4 x) = Ok y) ∧
  (∃ n, raw_entry_count rr = CInt n) ∧
  ∀ col, col ∈ percentage_columns → is_Some (raw_cells rr !! col).

End PreparerRows.

(** ** Vocabulary of the statements about numbers *)

(** The 64-bit integers. *)
Definition int64 (n : Z) : Prop := - 2 ^ 63 ≤ n < 2 ^ 63.

(** A sum of integers as mathematics has it, without a width. *)
Definition exact_sum (xs : list Z) : Z := foldr Z.add 0 xs.




(** The rational number a float stands for, when it stands for one. *)
Definition float_value (x : float) : option Q :=
  match Prim2SF x with
  | S754_zero _ => Some 0%Q
  | S754_finite s m e =>
      Some ((if s then - inject_Z (Zpos m) else inject_Z (Zpos m)) * Qpower 2 e)%Q
  | _ => None
  end.

(** Modelled from the spec: the arithmetic mean of the values that are
    there, in exact arithmetic; nothing when there is no value. *)
Definition arithmetic_mean (xs : list Q) : option Q :=
  match xs with
  | [] => None
  | _ => Some (foldr Qplus 0%Q xs / inject_Z (Z.of_nat (length xs)))%Q
  end.

(** Two results of exact arithmetic are the same number, or both are
    nothing. *)
Definition same_number (a b : option Q) : Prop :=
  match a, b with
  | Some x, Some y => (x == y)%Q
  | None, None => True
  | _, _ => False
  end.

(** ** Vocabulary of the statements about queries *)

(** The float a row holds in a numeric column: the entry count as the
    float64 nearest to it, a cell of the map as it is; missing when the
    column is absent or holds text. *)
Definition float_of (col : string) (r : Row) : float :=
  if decide (col = "entry_count") then of_int (entry_count r)
  else match cells r !! col with Some (Num x) => x | _ => nan end.

(** The percentage columns and their absolute companions hold floats. *)
Definition numeric_row (r : Row) : Prop :=
  ∀ col, col ∈ (percentage_columns ++ absolute_columns)%list →
         ∃ x, cells r !! col = Some (Num x).

(** The indicator rows of the table, by indicator type. *)
Definition indicator_columns (indicator_type : string) : list string :=
  "entry_count" ::
    (if decide (indicator_type = "percentage") then percentage_columns
     else absolute_columns).

(** The years that occur in a frame, ascending. *)
Definition year_columns (df : list Row) : list Z :=
  group_keys (start_year <$> df).

(** The rows of a frame that belong to one year. *)
Definition rows_of_year (y : Z) (df : list Row) : list Row :=
  filter (λ r, start_year r = y) df.

(** The record the table shows for one indicator. *)
Definition table_record (filtered : list Row) (col : string) : gmap string value :=
  dict (("Indicator", VStr col)
          :: ((λ y, (Str.str y, VFloat (mean (float_of col <$> rows_of_year y filtered))))
                <$> year_columns filtered)).

(** The subjects a filter value stands for. *)
Definition subject_list (a : subjects_arg) : list string :=
  match a with Several l => l | Scalar s => [s] end.

(** The name of a subject's line. *)
Definition series_name (subject characteristic : string) : string :=
  subject +:+ " (" +:+ characteristic +:+ ")".

(** The rows behind one subject's line. *)
Definition subject_rows (df : list Row) (start_date end_date : Z)
    (characteristic : string) (subjects : list string) (subject : string) : list Row :=
  filter (λ r, subject_name r = subject)
         (filter (mask start_date end_date characteristic subjects) df).

(** ** Example data *)

(** Character tables for the examples: the no-break space and the
    ideographic space are white space, the full-width digits are digits. *)
Definition fullwidth_digits : list string :=
  ["０"; "１"; "２"; "３"; "４"; "５"; "６"; "７"; "８"; "９"].

Definition no_break_space : string :=
  String (ascii_of_nat 194) (String (ascii_of_nat 160) "").

Definition ideographic_space : string :=
  String (ascii_of_nat 227) (String (ascii_of_nat 128) (String (ascii_of_nat 128) "")).

Definition example_unicode : Str.Unicode :=
  Str.mkUnicode
    (λ ch, bool_decide (ch ∈ [no_break_space; ideographic_space]))
    (λ ch, (λ found : nat * string, Z.of_nat found.1)
             <$> list_find (λ d, d = ch) fullwidth_digits).

(** A reader of plain decimal integers, standing in for the library's
    numeric grammar in the examples. *)
Definition example_parse (s : string) : float :=
  match Str.parse s with Ok n => of_int n | Err _ => nan end.

Definition example_lib : Library := mkLibrary example_unicode example_parse.

(** Mathematics, all students, 2019 to 2021: entries 100/120/110 and A*
    percentages 10/12/11; the other bands are empty. *)
Definition example_cells (astar : float) : gmap string cell :=
  <["perc_astar_grade_achieved" := Num astar]>
  (<["perc_astar_a_grade_achieved" := Num nan]>
  (<["perc_astar_b_grade_achieved" := Num nan]>
  (<["perc_astar_c_grade_achieved" := Num nan]>
  (<["perc_astar_d_grade_achieved" := Num nan]>
  (<["perc_astar_e_grade_achieved" := Num nan]> ∅))))).

Definition example_raw : list RawRow :=
  [ mkRawRow "Mathematics" "All Students" (PInt 201920) (CInt 100) (example_cells 10);
    mkRawRow "Mathematics" "All Students" (PInt 202021) (CInt 120) (example_cells 12);
    mkRawRow "Mathematics" "All Students" (PInt 202122) (CInt 110) (example_cells 11) ].

(** A second table with two subjects, two characteristics, suppressed cells
    (text), numbers delivered as text, and a period in full-width digits. *)
Definition sample_cells (astar a : cell) : gmap string cell :=
  <["perc_astar_grade_achieved" := astar]>
  (<["perc_astar_a_grade_achieved" := a]>
  (<["perc_astar_b_grade_achieved" := Num 60]>
  (<["perc_astar_c_grade_achieved" := Text "80"]>
  (<["perc_astar_d_grade_achieved" := Num nan]>
  (<["perc_astar_e_grade_achieved" := Text "z"]> ∅))))).

Definition sample_raw : list RawRow :=
  [ mkRawRow "Mathematics" "All Students" (PInt 201920) (CInt 100)
      (sample_cells (Num 10) (Text "x"));
    mkRawRow "Physics" "All Students" (PText "201920") (CInt 40)
      (sample_cells (Text "25") (Num 50));
    mkRawRow "Mathematics" "Female" (PInt 201920) (CInt 45)
      (sample_cells (Num nan) (Num 30));
    mkRawRow "Mathematics" "All Students" (PText "２０２０２１") (CInt 120)
      (sample_cells (Num 12) (Num 35));
    mkRawRow "Physics" "All Students" (PInt 202021) (CInt 60)
      (sample_cells (Num 20) (Text "c")) ].

(** The frames the preparer makes of example tables. *)
Definition prepared_or_empty (raw : list RawRow) : list Row :=
  match prepare example_lib raw with Ok df => df | Err _ => [] end.

Definition example_df : list Row := prepared_or_empty example_raw.
Definition sample_df : list Row := prepared_or_empty sample_raw.


Definition large_raw : list RawRow :=
  [ mkRawRow "Mathematics" "All Students" (PInt 201920) (CInt 9007199254740993)
      (example_cells 10) ].

Definition overflow_raw : list RawRow :=
  [ mkRawRow "Mathematics" "All Students" (PInt 201920) (CInt 9223372036854775807)
      (example_cells 10);
    mkRawRow "Mathematics" "All Students" (PInt 201920) (CInt 1)
      (example_cells 10) ].

Definition repeated_raw : list RawRow :=
  [ mkRawRow "Mathematics" "All Students" (PInt 201920) (CInt 100) (example_cells 99.9);
    mkRawRow "Physics" "All Students" (PInt 201920) (CInt 100) (example_cells 99.9);
    mkRawRow "Chemistry" "All Students" (PInt 201920) (CInt 100) (example_cells 99.9) ].

Definition large_df : list Row := prepared_or_empty large_raw.
Definition overflow_df : list Row := prepared_or_empty overflow_raw.
Definition repeated_df : list Row := prepared_or_empty repeated_raw.

(** ** Vocabulary of the statements about the preparer *)


(** The text of a period cell. *)
Definition period_text (v : period) (x : string) : Prop :=
  match v with
  | PInt n => x = Str.str n
  | PText s => x = s
  | PMissing => False
  end.

(** [tail] starts at a character of the string it ends. *)
Definition at_character (tail : string) : Prop :=
  match tail with
  | "" => True
  | String c _ => Str.is_continuation c = false
  end.

(** What the period columns of a prepared row say: the period splits into
    its first four characters (all of it when it is shorter) and the rest;
    the start year is the integer the first part reads as, and the formatted
    period puts a slash between the parts. *)
Definition period_derived (lib : Library) (rr : RawRow) (r : Row) : Prop :=
  period_text (raw_time_period rr) (time_period r) ∧
  ∃ head tail,
    time_period r = head +:+ tail ∧ at_character tail ∧
    (Str.len head = 4%nat ∨ (Str.len head < 4)%nat ∧ tail = "") ∧
    Str.int (unicode lib) head = Ok (start_year r) ∧
    formatted_time_period r = head +:+ "/" +:+ tail.

(** ** Page layout (lines 34-101)

    The layout is built once, from the prepared table.  Its parts that
    depend on the table are the options and the initial values of the five
    controls. *)

(** [series.unique()]: the distinct values in the order they first occur.
    [seen] holds the values met so far. *)
Fixpoint unique_go {A} `{EqDecision A} (seen : list A) (l : list A) : list A :=
  match l with
  | [] => []
  | x :: l' =>
      if decide (x ∈ seen) then unique_go seen l'
      else x :: unique_go (x :: seen) l'
  end.

Definition unique {A} `{EqDecision A} (l : list A) : list A := unique_go [] l.

(** [sorted(xs)] on integers, by insertion. *)
Fixpoint sorted_insert (x : Z) (l : list Z) : list Z :=
  match l with
  | [] => [x]
  | y :: l' => if decide (x ≤ y) then x :: l else y :: sorted_insert x l'
  end.

Definition sorted (l : list Z) : list Z := foldr sorted_insert [] l.

(** [min(xs)] and [max(xs)]: an empty sequence raises [ValueError]. *)
Definition py_min (l : list Z) : result Z :=
  match l with
  | [] => Err ValueError
  | x :: l' => Ok (foldl Z.min x l')
  end.

Definition py_max (l : list Z) : result Z :=
  match l with
  | [] => Err ValueError
  | x :: l' => Ok (foldl Z.max x l')
  end.

(** One entry of a control's options: [{'label': l, 'value': v}]. *)
Record Choice (A : Type) := mkChoice { choice_label : A; choice_value : A }.
Arguments mkChoice {A} choice_label choice_value.
Arguments choice_label {A} _.
Arguments choice_value {A} _.

(** The options and initial values of the controls, in the order of the
    layout. *)
Record Controls := mkControls {
  start_options : list (Choice Z);
  start_value : Z;
  end_options : list (Choice Z);
  end_value : Z;
  indicator_options : list (Choice string);
  indicator_value : string;
  characteristic_options : list (Choice string);
  characteristic_default : string;
  subject_options : list (Choice string);
  subject_value : list string
}.

(** The controls of [app.layout], evaluated in the order they are written. *)
Definition layout (df_table : list Row) : result Controls :=
  let start_opts :=
    (λ year, mkChoice year year) <$> sorted (unique (start_year <$> df_table)) in
  start ← py_min (start_year <$> df_table);
  let end_opts :=
    (λ year, mkChoice year year) <$> sorted (unique (start_year <$> df_table)) in
  stop ← py_max (start_year <$> df_table);
  let characteristic_opts :=
    (λ c, mkChoice c c) <$> unique (characteristic_value <$> df_table) in
  let subject_opts :=
    (λ s, mkChoice s s) <$> unique (subject_name <$> df_table) in
  first_subject ← Str.item (unique (subject_name <$> df_table)) 0;
  mret (mkControls start_opts start end_opts stop
          [mkChoice "Percentage" "percentage"; mkChoice "Absolute" "absolute"]
          "percentage"
          characteristic_opts "All Students"
          subject_opts [first_subject]).

(** ** Tables the preparer rejects *)

(** A period that does not start with an integer, a table that lacks one of
    the percentage columns, a period that is missing, and an entry count
    that is no number. *)
Definition bad_period_raw : list RawRow :=
  [ mkRawRow "Mathematics" "All Students" (PInt 201920) (CInt 100) (example_cells 10);
    mkRawRow "Mathematics" "All Students" (PText "n/a") (CInt 120)
      (delete "perc_astar_b_grade_achieved" (example_cells 12)) ].

Definition missing_column_raw : list RawRow :=
  [ mkRawRow "Mathematics" "All Students" (PInt 201920) (CInt 100)
      (delete "perc_astar_c_grade_achieved" (example_cells 10)) ].

Definition missing_period_raw : list RawRow :=
  [ mkRawRow "Mathematics" "All Students" (PText "n/a") (CInt 100) (example_cells 10);
    mkRawRow "Mathematics" "All Students" PMissing (CText "c") ∅ ].

Definition text_count_raw : list RawRow :=
  [ mkRawRow "Mathematics" "All Students" (PInt 201920) (CInt 100)
      (delete "perc_astar_a_grade_achieved" (example_cells 10));
    mkRawRow "Mathematics" "All Students" (PInt 201920) (CText "c") (example_cells nan) ].

(** The period of a raw row is there. *)
Definition period_present (rr : RawRow) : Prop :=
  raw_time_period rr ≠ PMissing.

(** The period of a raw row starts with an integer. *)
Definition period_readable (lib : Library) (rr : RawRow) : Prop :=
  ∃ x y, astype_str (raw_time_period rr) = Some x ∧
         Str.int (unicode lib) (Str.slice_to 4 x) = Ok y.

(** A raw row lacks one of the percentage columns. *)
Definition lacks_percentage (rr : RawRow) : Prop :=
  ∃ col, col ∈ percentage_columns ∧ raw_cells rr !! col = None.

(** The entry count of a raw row is text. *)
Definition count_is_text (rr : RawRow) : Prop :=
  ∃ s, raw_entry_count rr = CText s.

(** ** Vocabulary of the statements about strings *)

(** Every character of a string passes a test. *)
Fixpoint all_chars (P : ascii → bool) (s : string) : bool :=
  match s with
  | "" => true
  | String c s' => P c && all_chars P s'
  end.

(** A character [int] does not strip. *)
Definition not_space (c : ascii) : bool := negb (Str.is_space c).

(** ** Example controls *)

(** The controls the layout makes of the second example table. *)
Definition controls_or_default (df : list Row) : Controls :=
  match layout df with
  | Ok controls => controls
  | Err _ => mkControls [] 0 [] 0 [] "" [] "" [] []
  end.

Definition sample_controls : Controls := controls_or_default sample_df.

(** * Properties *)

(** ** Worked examples of the string functions *)

Example slice_example :
  Str.slice_to 4 "202122" = "2021" ∧ Str.slice_from 4 "202122" = "22" ∧
  Str.slice_to 4 "20" = "20" ∧ Str.slice_from 4 "20" = "" ∧
  Str.slice_to 4 "２０２１２２" = "２０２１" ∧ Str.slice_from 4 "２０２１２２" = "２２" ∧
  Str.len "２０２１２２" = 6%nat.
Proof. repeat split. Qed.

Example split_example :
  Str.split "_" "perc_astar_a_grade_achieved" = ["perc"; "astar"; "a"; "grade"; "achieved"]
  ∧ Str.split "_" "_a__" = [""; "a"; ""; ""].
Proof. split; reflexivity. Qed.

Example int_example :
  Str.int example_unicode "2021" = Ok 2021 ∧
  Str.int example_unicode " -20_21 " = Ok (-2021) ∧
  Str.int example_unicode "20a1" = Err ValueError ∧
  Str.int example_unicode "" = Err ValueError ∧
  Str.int example_unicode "2__1" = Err ValueError ∧
  Str.int example_unicode "２０２１" = Ok 2021 ∧
  Str.int example_unicode ("2021" +:+ ideographic_space) = Ok 2021 ∧
  Str.int example_unicode "2021é" = Err ValueError ∧
  Str.int example_unicode (String (ascii_of_nat 28) "201") = Err ValueError ∧
  Str.int example_unicode (String (ascii_of_nat 11) "201") = Ok 201.
Proof. repeat split. Qed.

Example str_example : Str.str 2019 = "2019" ∧ Str.str (-7) = "-7" ∧ Str.str 0 = "0".
Proof. repeat split. Qed.

Example abs_col_names : mapM abs_col_name percentage_columns = Ok absolute_columns.
Proof. reflexivity. Qed.

(** ** The error monad *)

Lemma bind_Ok {A B} (m : result A) (f : A → result B) b :
  m ≫= f = Ok b ↔ ∃ a, m = Ok a ∧ f a = Ok b.
Proof.
  destruct m as [a|e]; simpl; split.
  - eauto.
  - by intros (? & [= <-] & ?).
  - done.
  - by intros (? & ? & ?).
Qed.

Ltac inv_result :=
  repeat match goal with
  | H : _ ≫= _ = Ok _ |- _ => apply bind_Ok in H as (? & ? & H)
  | H : mret _ = Ok _ |- _ => injection H as H
  | H : Ok _ = Ok _ |- _ => injection H as H
  | H : Err _ = Ok _ |- _ => discriminate H
  end.

Lemma mapM_Ok {A B} (f : A → result B) (l : list A) (k : list B) :
  mapM f l = Ok k ↔ Forall2 (λ x y, f x = Ok y) l k.
Proof.
  revert k. induction l as [|x l IH]; intros k; simpl.
  - split.
    + intros [= <-]. constructor.
    + by inversion 1.
  - split.
    + intros H. inv_result. subst k. constructor; [done|]. by apply IH.
    + inversion 1 as [|? y ? k' Hy Hk]; subst.
      rewrite Hy. simpl. apply IH in Hk. by rewrite Hk.
Qed.

Lemma mapM_Ok_fmap {A B} (f : A → result B) (g : A → B) (l : list A) :
  (∀ x, x ∈ l → f x = Ok (g x)) → mapM f l = Ok (g <$> l).
Proof.
  intros H. apply mapM_Ok. induction l as [|x l IH]; constructor.
  - apply H. left.
  - apply IH. intros y Hy. apply H. by right.
Qed.

Lemma Forall2_compose {A B C} (P : A → B → Prop) (Q : B → C → Prop) l1 l2 l3 :
  Forall2 P l1 l2 → Forall2 Q l2 l3 → Forall2 (λ a c, ∃ b, P a b ∧ Q b c) l1 l3.
Proof.
  intros H. revert l3. induction H; inversion 1; subst; constructor; eauto.
Qed.

Lemma Forall2_bind_split {A B C} (f : A → result B) (g : B → result C) l l' :
  Forall2 (λ a c, f a ≫= g = Ok c) l l' →
  ∃ k, Forall2 (λ a b, f a = Ok b) l k ∧ Forall2 (λ b c, g b = Ok c) k l'.
Proof.
  induction 1 as [|a c l l' Hac _ (k & IH1 & IH2)].
  - exists []. split; constructor.
  - apply bind_Ok in Hac as (b & Hb & Hc).
    exists (b :: k). split; by constructor.
Qed.

(** ** Strings *)

Lemma append_cons (c : ascii) (s t : string) : String c s +:+ t = String c (s +:+ t).
Proof. reflexivity. Qed.

Lemma append_nil_l (t : string) : "" +:+ t = t.
Proof. reflexivity. Qed.

Lemma append_nil_r (s : string) : s +:+ "" = s.
Proof. induction s as [|c s IH]; [done|]. by rewrite append_cons, IH. Qed.

Lemma append_assoc (s t u : string) : (s +:+ t) +:+ u = s +:+ (t +:+ u).
Proof. induction s as [|c s IH]; [done|]. by rewrite !append_cons, IH. Qed.

(** *** Slices *)

Lemma len_append (s t : string) : Str.len (s +:+ t) = (Str.len s + Str.len t)%nat.
Proof.
  induction s as [|c s IH]; [done|]. rewrite append_cons. simpl.
  destruct (Str.is_continuation c); rewrite IH; lia.
Qed.

Lemma slice_split (n : nat) (s : string) : Str.slice_to n s +:+ Str.slice_from n s = s.
Proof.
  revert n. induction s as [|c s IH]; intros n; [done|]. simpl.
  destruct (Str.is_continuation c); [by rewrite append_cons, IH|].
  destruct n as [|n]; [done|]. by rewrite append_cons, IH.
Qed.

Lemma slice_from_at_character (n : nat) (s : string) : at_character (Str.slice_from n s).
Proof.
  revert n. induction s as [|c s IH]; intros n; [done|]. simpl.
  destruct (Str.is_continuation c) eqn:Hc; [apply IH|].
  destruct n as [|n]; [done|]. apply IH.
Qed.

Lemma slice_to_append (a t : string) :
  at_character t → Str.slice_to (Str.len a) (a +:+ t) = a.
Proof.
  intros Ht. induction a as [|c a IH].
  - destruct t as [|c t]; [done|]. simpl in *. by rewrite Ht.
  - rewrite append_cons. simpl. destruct (Str.is_continuation c); by rewrite IH.
Qed.

Lemma slice_from_append (a t : string) :
  at_character t → Str.slice_from (Str.len a) (a +:+ t) = t.
Proof.
  intros Ht. induction a as [|c a IH].
  - destruct t as [|c t]; [done|]. simpl in *. by rewrite Ht.
  - rewrite append_cons. simpl. by destruct (Str.is_continuation c).
Qed.

Lemma len_slice_to (n : nat) (s : string) :
  (n ≤ Str.len s)%nat → Str.len (Str.slice_to n s) = n.
Proof.
  revert n. induction s as [|c s IH]; intros n; simpl.
  - lia.
  - destruct (Str.is_continuation c) eqn:Hc; simpl; rewrite ?Hc.
    + apply IH.
    + destruct n as [|n]; [done|]. simpl. rewrite Hc. intros. rewrite IH; lia.
Qed.

Lemma slice_short (n : nat) (s : string) :
  (Str.len s < n)%nat → Str.slice_to n s = s ∧ Str.slice_from n s = "".
Proof.
  revert n. induction s as [|c s IH]; intros n; simpl; [done|].
  destruct (Str.is_continuation c) eqn:Hc.
  - intros [-> ->]%IH. done.
  - destruct n as [|n]; [lia|]. intros Hn.
    destruct (IH n) as [-> ->]; [lia|done].
Qed.

(** The first [n] characters and the rest, told apart without slicing. *)
Lemma slices_unique (n : nat) (s head tail : string) :
  s = head +:+ tail → at_character tail →
  (Str.len head = n ∨ (Str.len head < n)%nat ∧ tail = "") →
  head = Str.slice_to n s ∧ tail = Str.slice_from n s.
Proof.
  intros -> Htail [<-|[Hshort ->]].
  - by rewrite slice_to_append, slice_from_append.
  - rewrite append_nil_r. by destruct (slice_short n head Hshort) as [-> ->].
Qed.

Lemma slices_exist (n : nat) (s : string) :
  let head := Str.slice_to n s in
  let tail := Str.slice_from n s in
  s = head +:+ tail ∧ at_character tail ∧
  (Str.len head = n ∨ (Str.len head < n)%nat ∧ tail = "").
Proof.
  simpl. split; [by rewrite slice_split|]. split; [apply slice_from_at_character|].
  destruct (decide (n ≤ Str.len s)%nat) as [Hn|Hn].
  - left. by apply len_slice_to.
  - right. destruct (slice_short n s) as [-> ->]; [lia|]. split; [lia|done].
Qed.

(** X4.  Taking the slash out of a formatted period gives the period back,
    as long as the period has four characters or more; the formatted period
    is one character longer than the period. *)
Theorem format_period_round_trip (x : string) :
  (4 ≤ Str.len x)%nat →
  Str.slice_to 4 (format_period x) +:+ Str.slice_from 5 (format_period x) = x ∧
  Str.len (format_period x) = S (Str.len x).
Proof.
  intros Hlen. unfold format_period.
  pose proof (len_slice_to 4 x Hlen) as H4.
  pose proof (slice_from_at_character 4 x) as Htail.
  split.
  - rewrite <-H4 at 1. rewrite slice_to_append by done.
    change 5%nat with (S 4). rewrite <-H4 at 2.
    replace (S (Str.len (Str.slice_to 4 x)))
      with (Str.len (Str.slice_to 4 x +:+ "/")).
    2:{ rewrite len_append. simpl. lia. }
    rewrite <-append_assoc, slice_from_append by done. apply slice_split.
  - assert (Str.len x = (4 + Str.len (Str.slice_from 4 x))%nat) as Hx.
    { rewrite <-(slice_split 4 x) at 1. by rewrite len_append, H4. }
    rewrite !len_append, H4. change (Str.len "/") with 1%nat. lia.
Qed.

Lemma format_period_round_trip_sample :
  Str.slice_to 4 (format_period "２０２１22") +:+ Str.slice_from 5 (format_period "２０２１22")
  = "２０２１22" ∧
  Str.len (format_period "２０２１22") = S (Str.len "２０２１22").
Proof. apply (format_period_round_trip "２０２１22"). simpl. lia. Defined.

Example format_period_short : format_period "20" = "20/".
Proof. reflexivity. Qed.

(** *** Text within ASCII *)

Lemma ascii_not_continuation (c : ascii) :
  Str.is_ascii c = true → Str.is_continuation c = false.
Proof.
  unfold Str.is_ascii, Str.is_continuation. intros H%Nat.ltb_lt.
  apply andb_false_iff. left. apply Nat.leb_gt. lia.
Qed.

Lemma len_ascii (s : string) :
  all_chars Str.is_ascii s = true → Str.len s = String.length s.
Proof.
  induction s as [|c s IH]; [done|]. simpl. intros [Hc Hs]%andb_true_iff.
  by rewrite ascii_not_continuation, IH.
Qed.

Lemma at_character_ascii (s : string) :
  all_chars Str.is_ascii s = true → at_character s.
Proof.
  destruct s as [|c s]; [done|]. simpl. intros [Hc _]%andb_true_iff.
  by apply ascii_not_continuation.
Qed.

Lemma all_chars_append P (s t : string) :
  all_chars P (s +:+ t) = all_chars P s && all_chars P t.
Proof.
  induction s as [|c s IH]; [done|]. rewrite append_cons. simpl.
  by rewrite IH, andb_assoc.
Qed.

Lemma chars_ascii (c : ascii) (s : string) :
  all_chars Str.is_ascii s = true → Str.chars (String c s) = String c "" :: Str.chars s.
Proof.
  intros Hs. simpl. destruct s as [|c' s]; [done|].
  apply andb_true_iff in Hs as [Hc' Hs].
  destruct (Str.chars (String c' s)) as [|ch rest] eqn:Hch; [done|].
  assert (Str.starts_inside ch = false) as ->; [|done].
  simpl in Hch. destruct (Str.chars s) as [|ch' rest'].
  - injection Hch as <- <-. simpl. by apply ascii_not_continuation.
  - destruct (Str.starts_inside ch'); injection Hch as <- <-; simpl;
      by apply ascii_not_continuation.
Qed.

Lemma to_ascii_id (u : Str.Unicode) (s : string) :
  all_chars Str.is_ascii s = true → Str.to_ascii u (Str.chars s) = Some s.
Proof.
  induction s as [|c s IH]; [done|]. intros Hs.
  pose proof Hs as [Hc Hs']%andb_true_iff.
  rewrite chars_ascii by done. cbn [Str.to_ascii Str.ascii_of].
  rewrite Hc. simpl. by rewrite IH.
Qed.

Lemma int_ascii (u : Str.Unicode) (s : string) :
  all_chars Str.is_ascii s = true → Str.int u s = Str.parse s.
Proof. intros Hs. unfold Str.int. by rewrite to_ascii_id. Qed.

(** *** [int] after [str] *)

Lemma rev_app_rev_app (s t u : string) :
  String.rev_app (String.rev_app s t) u = String.rev_app t (s +:+ u).
Proof.
  revert t. induction s as [|c s IH]; intros t; [done|].
  simpl. rewrite IH. by rewrite append_cons.
Qed.

Lemma rev_rev (s : string) : String.rev (String.rev s) = s.
Proof. unfold String.rev. by rewrite rev_app_rev_app, append_nil_r. Qed.

Lemma all_chars_rev_app P (s t : string) :
  all_chars P (String.rev_app s t) = all_chars P s && all_chars P t.
Proof.
  revert t. induction s as [|c s IH]; intros t; [done|].
  simpl. rewrite IH. simpl. by destruct (P c), (all_chars P s).
Qed.

Lemma lstrip_id (s : string) : all_chars not_space s = true → Str.lstrip s = s.
Proof.
  destruct s as [|c s]; [done|]. simpl. unfold not_space.
  by destruct (Str.is_space c).
Qed.

Lemma strip_id (s : string) : all_chars not_space s = true → Str.strip s = s.
Proof.
  intros Hs. unfold Str.strip. rewrite (lstrip_id s Hs), lstrip_id.
  - apply rev_rev.
  - unfold String.rev. by rewrite all_chars_rev_app, Hs.
Qed.

Lemma pretty_N_char_not_space (d : N) : not_space (pretty_N_char d) = true.
Proof. unfold pretty_N_char. by repeat case_match. Qed.

Lemma pretty_N_char_ascii (d : N) : Str.is_ascii (pretty_N_char d) = true.
Proof. unfold pretty_N_char. by repeat case_match. Qed.

Lemma pretty_N_go_all P (x : N) (s : string) :
  (∀ d, P (pretty_N_char d) = true) →
  all_chars P s = true → all_chars P (pretty_N_go x s) = true.
Proof.
  intros HP. revert s. induction (N.lt_wf_0 x) as [x _ IH]. intros s Hs.
  destruct (decide (x = 0)%N) as [->|Hx].
  - by rewrite pretty_N_go_0.
  - rewrite pretty_N_go_step by lia. apply IH.
    + apply N.div_lt; lia.
    + simpl. by rewrite HP.
Qed.

Lemma pretty_N_go_not_space (x : N) (s : string) :
  all_chars not_space s = true → all_chars not_space (pretty_N_go x s) = true.
Proof. apply pretty_N_go_all, pretty_N_char_not_space. Qed.

Lemma pretty_Z_ascii (n : Z) : all_chars Str.is_ascii (pretty n) = true.
Proof.
  unfold pretty, pretty_Z. destruct n as [|p|p]; [done| |].
  - unfold pretty, pretty_positive, pretty, pretty_N.
    rewrite decide_False by done. apply pretty_N_go_all; [apply pretty_N_char_ascii|done].
  - unfold pretty, pretty_positive, pretty, pretty_N.
    rewrite decide_False by done. rewrite append_cons, append_nil_l. simpl.
    apply pretty_N_go_all; [apply pretty_N_char_ascii|done].
Qed.

Lemma digit_of_pretty (d : N) :
  (d < 10)%N → Str.digit_of (pretty_N_char d) = Some (Z.of_N d).
Proof.
  intros Hd.
  assert (d = 0 ∨ d = 1 ∨ d = 2 ∨ d = 3 ∨ d = 4 ∨ d = 5 ∨ d = 6 ∨ d = 7 ∨ d = 8 ∨ d = 9)%N
    as Hcases by lia.
  repeat (destruct Hcases as [->|Hcases]; [reflexivity|]). by subst.
Qed.

(** A digit at the head sends the parser to its unsigned branch. *)
Lemma digit_headed (c : ascii) (rest : string) (d : Z) :
  Str.digit_of c = Some d →
  match String c rest with
  | String "-" s' => option_map Z.opp (Str.digits 0 false s')
  | String "+" s' => Str.digits 0 false s'
  | s' => Str.digits 0 false s'
  end = Str.digits 0 false (String c rest).
Proof.
  intros Hd. destruct c as [[] [] [] [] [] [] [] []]; try reflexivity;
    vm_compute in Hd; discriminate.
Qed.

Lemma digits_pretty_N_go (x : N) (acc : Z) (b : bool) (s : string) :
  ∃ k, 0 ≤ k ∧
    Str.digits acc b (pretty_N_go x s)
    = if decide (x = 0)%N then Str.digits acc b s
      else Str.digits (acc * 10 ^ k + Z.of_N x) true s.
Proof.
  revert acc b s. induction (N.lt_wf_0 x) as [x _ IH]. intros acc b s.
  destruct (decide (x = 0)%N) as [->|Hx].
  - exists 0. by rewrite pretty_N_go_0.
  - rewrite pretty_N_go_step by lia.
    destruct (IH (x `div` 10)%N) with (acc := acc) (b := b)
      (s := String (pretty_N_char (x `mod` 10)) s) as (k & Hk & ->).
    { apply N.div_lt; lia. }
    assert (Z.of_N x = 10 * Z.of_N (x `div` 10) + Z.of_N (x `mod` 10)) as Hdm.
    { rewrite N2Z.inj_div, N2Z.inj_mod. apply Z.div_mod. lia. }
    assert (x `mod` 10 < 10)%N as Hmod by (apply N.mod_lt; lia).
    destruct (decide (x `div` 10 = 0)%N) as [H0|H0].
    + exists 1. split; [lia|]. simpl. rewrite digit_of_pretty by done.
      f_equal. rewrite Hdm, H0. lia.
    + exists (k + 1). split; [lia|]. simpl. rewrite digit_of_pretty by done.
      f_equal. rewrite Hdm, Z.pow_add_r by lia. lia.
Qed.

Lemma pretty_N_go_headed (x : N) (s : string) :
  (0 < x)%N → ∃ d rest, (d < 10)%N ∧ pretty_N_go x s = String (pretty_N_char d) rest.
Proof.
  revert s. induction (N.lt_wf_0 x) as [x _ IH]. intros s Hx.
  rewrite pretty_N_go_step by done.
  destruct (decide (x `div` 10 = 0)%N) as [->|H0].
  - rewrite pretty_N_go_0. eexists _, _. split; [|done]. apply N.mod_lt; lia.
  - apply IH; [apply N.div_lt; lia|by apply N.neq_0_lt_0].
Qed.

Lemma parse_pretty_N (x : N) : (0 < x)%N → Str.parse (pretty_N_go x "") = Ok (Z.of_N x).
Proof.
  intros Hx. unfold Str.parse. rewrite strip_id by by apply pretty_N_go_not_space.
  destruct (pretty_N_go_headed x "" Hx) as (d & rest & Hd & Heq).
  rewrite Heq, (digit_headed _ _ (Z.of_N d)) by by apply digit_of_pretty.
  rewrite <-Heq.
  destruct (digits_pretty_N_go x 0 false "") as (k & _ & ->).
  rewrite decide_False by lia. simpl. f_equal; lia.
Qed.

Lemma parse_pretty_Z (n : Z) : Str.parse (pretty n) = Ok n.
Proof.
  unfold pretty, pretty_Z. destruct n as [|p|p]; [done| |].
  - unfold pretty, pretty_positive, pretty, pretty_N.
    rewrite decide_False by done. by rewrite parse_pretty_N.
  - unfold pretty, pretty_positive, pretty, pretty_N.
    rewrite decide_False by done. rewrite append_cons, append_nil_l.
    unfold Str.parse. rewrite strip_id.
    2:{ simpl. by apply pretty_N_go_not_space. }
    destruct (digits_pretty_N_go (Npos p) 0 false "") as (k & _ & Hk).
    rewrite decide_False in Hk by lia. cbn [option_map].
    change (match String "-" (pretty_N_go (N.pos p) "") with
            | String "-" s' => option_map Z.opp (Str.digits 0 false s')
            | String "+" s' => Str.digits 0 false s'
            | s' => Str.digits 0 false s'
            end) with (option_map Z.opp (Str.digits 0 false (pretty_N_go (N.pos p) ""))).
    rewrite Hk. simpl. f_equal; lia.
Qed.

Lemma int_pretty_Z (u : Str.Unicode) (n : Z) : Str.int u (pretty n) = Ok n.
Proof. rewrite int_ascii by apply pretty_Z_ascii. apply parse_pretty_Z. Qed.

(** X5.  Reading back the text of an integer gives the integer:
    [int(str(n)) = n]. *)
Theorem int_str (u : Str.Unicode) (n : Z) : Str.int u (Str.str n) = Ok n.
Proof. apply int_pretty_Z. Qed.

(** *** Six-digit periods *)

Lemma pretty_N_go_append (x : N) (s : string) :
  pretty_N_go x s = pretty_N_go x "" +:+ s.
Proof.
  revert s. induction (N.lt_wf_0 x) as [x _ IH]. intros s.
  destruct (decide (x = 0)%N) as [->|Hx].
  - by rewrite !pretty_N_go_0.
  - rewrite !(pretty_N_go_step x) by lia.
    assert (x `div` 10 < x)%N as Hlt by (apply N.div_lt; lia).
    rewrite (IH _ Hlt (String _ s)), (IH _ Hlt (String _ "")).
    by rewrite append_assoc.
Qed.

Lemma str_positive (n : Z) : 0 < n → Str.str n = pretty_N_go (Z.to_N n) "".
Proof.
  intros Hn. destruct n as [|p|p]; try lia.
  unfold Str.str, pretty, pretty_Z, pretty, pretty_positive, pretty, pretty_N.
  by rewrite decide_False.
Qed.

Lemma length_pretty_four (x : N) :
  (1000 ≤ x ≤ 9999)%N → String.length (pretty_N_go x "") = 4%nat.
Proof.
  intros Hx.
  assert (0 < x ∧ 0 < x `div` 10 ∧ 0 < (x `div` 10) `div` 10
          ∧ 0 < ((x `div` 10) `div` 10) `div` 10
          ∧ (((x `div` 10) `div` 10) `div` 10) `div` 10 = 0)%N
    as (H0 & H1 & H2 & H3 & H4).
  { zify. Z.to_euclidean_division_equations. lia. }
  rewrite (pretty_N_go_step x), (pretty_N_go_step (x `div` 10)),
    (pretty_N_go_step ((x `div` 10) `div` 10)),
    (pretty_N_go_step (((x `div` 10) `div` 10) `div` 10)) by done.
  by rewrite H4, pretty_N_go_0.
Qed.

Lemma pretty_hundreds (x : N) :
  (100 ≤ x)%N →
  ∃ tail, pretty_N_go x "" = pretty_N_go (x `div` 100) "" +:+ tail.
Proof.
  intros Hx.
  assert (0 < x ∧ 0 < x `div` 10 ∧ (x `div` 10) `div` 10 = x `div` 100)%N
    as (H0 & H1 & H2).
  { zify. Z.to_euclidean_division_equations. lia. }
  rewrite (pretty_N_go_step x), (pretty_N_go_step (x `div` 10)) by done.
  rewrite H2, pretty_N_go_append. by eexists.
Qed.

Lemma slice_to_str_hundreds (n : Z) :
  100000 ≤ n ≤ 999999 → Str.slice_to 4 (Str.str n) = Str.str (n `div` 100).
Proof.
  intros Hn.
  assert (1000 ≤ n `div` 100 ≤ 9999) as Hq.
  { Z.to_euclidean_division_equations. lia. }
  pose proof (pretty_Z_ascii n) as Hascii. fold (Str.str n) in Hascii.
  pose proof (pretty_Z_ascii (n `div` 100)) as Hhead. fold (Str.str (n `div` 100)) in Hhead.
  rewrite !str_positive in * by lia.
  rewrite Z2N.inj_div in * by lia. change (Z.to_N 100) with 100%N in *.
  destruct (pretty_hundreds (Z.to_N n)) as [tail Htail]; [lia|].
  rewrite Htail in *. rewrite all_chars_append in Hascii.
  apply andb_true_iff in Hascii as [_ Hascii].
  rewrite <-(length_pretty_four (Z.to_N n `div` 100)) at 1.
  - rewrite <-len_ascii by done. by apply slice_to_append, at_character_ascii.
  - zify. Z.to_euclidean_division_equations. lia.
Qed.

Ltac in_list := repeat first [apply list_elem_of_here | apply list_elem_of_further].

(** ** The preparer, row by row *)

Section PreparerFacts.

Variable lib : Library.

Lemma derive_row_Ok col d d' :
  derive_row lib col d = Ok d' ↔
  ∃ c abs_col n, draft_cells d !! col = Some c ∧ abs_col_name col = Ok abs_col ∧
    draft_count d = CInt n ∧
    d' = set_cell abs_col (Num (to_numeric lib c / 100 * of_int n)%float)
           (set_cell col (Num (to_numeric lib c)) d).
Proof.
  unfold derive_row, coerce_row, absolute_row, float_cell, count_operand. split.
  - intros H. destruct (draft_cells d !! col) as [c|] eqn:Hc; [|done].
    simpl in H. destruct (abs_col_name col) as [a|] eqn:Ha; [|done].
    simpl in H. rewrite lookup_insert_eq in H. simpl in H.
    destruct (draft_count d) as [n|s] eqn:Hn; [|done]. simpl in H.
    injection H as <-. by exists c, a, n.
  - intros (c & a & n & -> & -> & Hn & ->). simpl. rewrite lookup_insert_eq. simpl.
    by rewrite Hn.
Qed.

Lemma derive_column_rows col df df' :
  derive_column lib col df = Ok df' →
  Forall2 (λ d d', derive_row lib col d = Ok d') df df'.
Proof.
  unfold derive_column. intros H. inv_result.
  apply mapM_Ok in H. rename select (mapM _ _ = _) into Hco.
  apply mapM_Ok in Hco.
  eapply Forall2_impl; [exact (Forall2_compose _ _ _ _ _ Hco H)|].
  intros r r' (r1 & Hr1 & Hr'). unfold derive_row.
  rewrite Hr1. simpl. rename select (abs_col_name _ = _) into Ha.
  by rewrite Ha.
Qed.

Lemma rows_derive_column col df df' abs_col :
  abs_col_name col = Ok abs_col →
  Forall2 (λ d d', derive_row lib col d = Ok d') df df' →
  derive_column lib col df = Ok df'.
Proof.
  intros Ha H. unfold derive_column.
  apply Forall2_bind_split in H as (df1 & H1 & H2).
  apply mapM_Ok in H1. rewrite H1. simpl. rewrite Ha. simpl.
  apply mapM_Ok. eapply Forall2_impl; [exact H2|].
  simpl. intros r1 r' Hr. by rewrite Ha in Hr.
Qed.

Lemma for_each_rows cols df df' :
  for_each (derive_column lib) cols df = Ok df' →
  Forall2 (λ d d', for_each (derive_row lib) cols d = Ok d') df df'.
Proof.
  revert df. induction cols as [|col cols IH]; simpl; intros df H.
  - injection H as <-. by apply Forall_Forall2_diag, Forall_true.
  - inv_result. rename select (derive_column _ _ _ = _) into Hcol.
    apply derive_column_rows in Hcol. apply IH in H.
    eapply Forall2_impl; [exact (Forall2_compose _ _ _ _ _ Hcol H)|].
    intros r r' (r1 & Hr1 & Hr'). by rewrite Hr1.
Qed.

Lemma rows_for_each cols df df' :
  Forall (λ col, ∃ a, abs_col_name col = Ok a) cols →
  Forall2 (λ d d', for_each (derive_row lib) cols d = Ok d') df df' →
  for_each (derive_column lib) cols df = Ok df'.
Proof.
  intros Hcols. revert df.
  induction Hcols as [|col cols [a Ha] _ IH]; simpl; intros df H.
  - f_equal. apply list_eq_Forall2. eapply Forall2_impl; [exact H|].
    by intros ?? [= ->].
  - apply Forall2_bind_split in H as (df1 & H1 & H2).
    rewrite (rows_derive_column _ _ _ _ Ha H1). simpl. by apply IH.
Qed.

Lemma prepare_rows raw df :
  prepare lib raw = Ok df ↔ Forall2 (λ rr r, prepare_row lib rr = Ok r) raw df.
Proof.
  unfold prepare, prepare_row. split.
  - intros H.
    apply bind_Ok in H as (formatted & Hformat%mapM_Ok & H).
    apply bind_Ok in H as (years & Hyears%mapM_Ok & H).
    apply bind_Ok in H as (df1 & Hloop%for_each_rows & Hfinish%mapM_Ok).
    pose proof (Forall2_compose _ _ _ _ _ Hformat
                  (Forall2_compose _ _ _ _ _ Hyears
                     (Forall2_compose _ _ _ _ _ Hloop Hfinish))) as Hall.
    eapply Forall2_impl; [exact Hall|]. simpl.
    intros rr r (f & -> & d & Hd & d' & Hd' & Hr). cbn [mbind result_bind].
    rewrite Hd. cbn [mbind result_bind]. rewrite Hd'. done.
  - intros H.
    apply Forall2_bind_split in H as (formatted & Hformat & H).
    apply Forall2_bind_split in H as (years & Hyears & H).
    apply Forall2_bind_split in H as (df1 & Hloop & Hfinish).
    apply mapM_Ok in Hformat, Hyears, Hfinish.
    rewrite Hformat. cbn [mbind result_bind]. rewrite Hyears. cbn [mbind result_bind].
    rewrite (rows_for_each percentage_columns years df1); [done| |done].
    repeat constructor; eexists; reflexivity.
Qed.

(** What a successful preparation leaves in a row: the typed columns, and
    for every percentage column the coerced cell and its absolute
    companion. *)
Lemma prepare_row_fields rr r :
  prepare_row lib rr = Ok r →
  (subject_name r = raw_subject_name rr ∧
   characteristic_value r = raw_characteristic_value rr ∧
   astype_str (raw_time_period rr) = Some (time_period r) ∧
   formatted_time_period r = format_period (time_period r) ∧
   Str.int (unicode lib) (Str.slice_to 4 (time_period r)) = Ok (start_year r) ∧
   raw_entry_count rr = CInt (entry_count r)) ∧
  ∀ col, col ∈ percentage_columns →
    ∃ c abs_col, raw_cells rr !! col = Some c ∧ abs_col_name col = Ok abs_col ∧
      cells r !! col = Some (Num (to_numeric lib c)) ∧
      cells r !! abs_col
      = Some (Num (to_numeric lib c / 100 * of_int (entry_count r))%float).
Proof.
  unfold prepare_row, format_row, year_row. intros H.
  apply bind_Ok in H as (f & Hf & H).
  destruct (astype_str (raw_time_period rr)) as [x|] eqn:Hx; [|done].
  injection Hf as <-.
  apply bind_Ok in H as (d & Hd & H).
  apply bind_Ok in Hd as (y & Hy & [= <-]).
  apply bind_Ok in H as (d' & H & Hr).
  unfold percentage_columns in H. cbn [for_each] in H.
  repeat (apply bind_Ok in H as (? & ?%derive_row_Ok & H)).
  injection H as <-.
  repeat match goal with H : ∃ _, _ |- _ => destruct H as (? & ? & ? & ? & ? & ? & ?) end.
  repeat match goal with
         | H : abs_col_name _ = Ok _ |- _ => vm_compute in H; injection H as <-
         end.
  subst. unfold finish in Hr.
  cbn [draft_cells draft_count set_cell draft_subject draft_characteristic
       draft_period draft_formatted draft_year] in *.
  repeat match goal with
         | H : raw_entry_count _ = CInt _ |- _ => rewrite H in *
         end.
  repeat match goal with
         | H : CInt _ = CInt _ |- _ => injection H as <-
         end.
  injection Hr as <-.
  cbn [cells subject_name characteristic_value time_period
       formatted_time_period start_year entry_count].
  unfold assigned_columns in *. cbn [foldr] in *.
  repeat match goal with
         | H : _ !! _ = Some _ |- _ =>
             progress rewrite ?lookup_insert_ne, ?lookup_delete_ne in H by done
         end.
  split; [done|].
  intros col Hcol.
  repeat (apply elem_of_cons in Hcol as [->|Hcol]);
    [ .. | by apply elem_of_nil in Hcol ];
    (eexists _, _; split; [eassumption|]; split; [reflexivity|]).
  all: split; simplify_map_eq; done.
Qed.

Lemma derive_row_eq col d c abs_col n :
  draft_cells d !! col = Some c → abs_col_name col = Ok abs_col →
  draft_count d = CInt n →
  derive_row lib col d
  = Ok (set_cell abs_col (Num (to_numeric lib c / 100 * of_int n)%float)
          (set_cell col (Num (to_numeric lib c)) d)).
Proof. intros. apply derive_row_Ok. by exists c, abs_col, n. Qed.

Lemma for_each_derive_row_total cols d n :
  draft_count d = CInt n →
  (∀ col, col ∈ cols → is_Some (draft_cells d !! col) ∧ ∃ a, abs_col_name col = Ok a) →
  ∃ d', for_each (derive_row lib) cols d = Ok d' ∧ draft_count d' = CInt n.
Proof.
  revert d. induction cols as [|col cols IH]; intros d Hn H.
  - by exists d.
  - destruct (H col) as [[c Hc] [a Ha]]; [left|].
    cbn [for_each]. rewrite (derive_row_eq col d c a n Hc Ha Hn).
    cbn [mbind result_bind]. apply IH; [done|]. intros col' Hcol'.
    destruct (H col') as [Hsome Hname]; [by right|].
    split; [|done]. unfold set_cell. cbn [draft_cells].
    rewrite !lookup_insert_is_Some'. auto.
Qed.

Lemma prepare_row_total rr : readable lib rr → ∃ r, prepare_row lib rr = Ok r.
Proof.
  intros ((x & y & Hx & Hy) & [n Hn] & Hcols). unfold prepare_row, format_row, year_row.
  rewrite Hx. cbn [mbind result_bind mret result_ret]. rewrite Hy.
  cbn [mbind result_bind mret result_ret].
  edestruct (for_each_derive_row_total percentage_columns) as (d' & -> & Hd').
  - cbn [draft_count]. exact Hn.
  - intros col Hcol. split.
    + cbn [draft_cells assigned_columns foldr].
      unfold percentage_columns in Hcol.
      repeat (apply elem_of_cons in Hcol as [->|Hcol]);
        [ .. | by apply elem_of_nil in Hcol ];
        rewrite !lookup_delete_ne by done; apply Hcols; in_list.
    + unfold percentage_columns in Hcol.
      repeat (apply elem_of_cons in Hcol as [->|Hcol]);
        [ .. | by apply elem_of_nil in Hcol ]; eexists; vm_compute; reflexivity.
  - cbn [mbind result_bind]. unfold finish. rewrite Hd'. by eexists.
Qed.

Lemma prepare_row_readable rr r : prepare_row lib rr = Ok r → readable lib rr.
Proof.
  intros [(_ & _ & Htp & _ & Hy & Hn) Hcols]%prepare_row_fields.
  split; [by eexists _, _|]. split; [by eexists|].
  intros col Hcol. destruct (Hcols col Hcol) as (c & _ & -> & _). by eexists.
Qed.

End PreparerFacts.

(** ** The prepared table *)

Lemma Forall_exists_Forall2 {A B} (R : A → B → Prop) (l : list A) :
  Forall (λ a, ∃ b, R a b) l → ∃ k, Forall2 R l k.
Proof.
  induction 1 as [|a l [b Hab] _ [k IH]].
  - exists []. constructor.
  - exists (b :: k). by constructor.
Qed.

Lemma prepare_total lib raw :
  Forall (readable lib) raw → ∃ df, prepare lib raw = Ok df.
Proof.
  intros H.
  destruct (Forall_exists_Forall2 (λ rr r, prepare_row lib rr = Ok r) raw)
    as [df Hdf].
  { eapply Forall_impl; [exact H|]. apply prepare_row_total. }
  exists df. by apply prepare_rows.
Qed.

Lemma prepare_readable lib raw df :
  prepare lib raw = Ok df → Forall (readable lib) raw.
Proof.
  intros H%prepare_rows. induction H as [|rr r raw df Hr _ IH]; constructor; [|done].
  by eapply prepare_row_readable.
Qed.

Lemma absolute_of_percentage a :
  a ∈ absolute_columns → ∃ col, col ∈ percentage_columns ∧ abs_col_name col = Ok a.
Proof.
  unfold absolute_columns, percentage_columns. intros Ha.
  repeat (apply elem_of_cons in Ha as [->|Ha]); [ .. | by apply elem_of_nil in Ha ].
  - exists "perc_astar_grade_achieved". split; [|done]. repeat constructor.
  - exists "perc_astar_a_grade_achieved". split; [|done]. repeat constructor.
  - exists "perc_astar_b_grade_achieved". split; [|done]. repeat constructor.
  - exists "perc_astar_c_grade_achieved". split; [|done]. repeat constructor.
  - exists "perc_astar_d_grade_achieved". split; [|done]. repeat constructor.
  - exists "perc_astar_e_grade_achieved". split; [|done]. repeat constructor.
Qed.

Lemma prepared_numeric lib raw df :
  prepare lib raw = Ok df → Forall numeric_row df.
Proof.
  intros H%prepare_rows. induction H as [|rr r raw df Hr _ IH]; constructor; [|done].
  apply prepare_row_fields in Hr as [_ Hr]. intros col [Hcol|Hcol]%elem_of_app.
  - destruct (Hr col Hcol) as (c & a & _ & _ & Hc & _). eauto.
  - apply absolute_of_percentage in Hcol as (pc & Hpc & Ha).
    destruct (Hr pc Hpc) as (c & a & _ & Ha' & _ & Hc).
    rewrite Ha in Ha'. injection Ha' as <-. eauto.
Qed.

Lemma readable_intro lib rr x y n :
  astype_str (raw_time_period rr) = Some x →
  Str.int (unicode lib) (Str.slice_to 4 x) = Ok y →
  raw_entry_count rr = CInt n →
  Forall (λ col, is_Some (raw_cells rr !! col)) percentage_columns →
  readable lib rr.
Proof.
  intros Hx Hy Hn Hcols. split; [by exists x, y|]. split; [by exists n|].
  intros col Hcol. by eapply Forall_forall in Hcols.
Qed.

Ltac readable_row :=
  eapply readable_intro;
  [ reflexivity | vm_compute; reflexivity | reflexivity
  | apply (bool_decide_unpack _); vm_compute; exact I ].

Ltac readable_rows :=
  repeat (constructor; [readable_row|]); constructor.

Lemma sample_raw_readable : Forall (readable example_lib) sample_raw.
Proof. readable_rows. Qed.

Lemma example_raw_readable : Forall (readable example_lib) example_raw.
Proof. readable_rows. Qed.

Lemma prepared_or_empty_Ok raw :
  Forall (readable example_lib) raw → prepare example_lib raw = Ok (prepared_or_empty raw).
Proof.
  intros [df H]%(prepare_total example_lib). unfold prepared_or_empty. by rewrite H.
Qed.

Lemma sample_df_prepared : prepare example_lib sample_raw = Ok sample_df.
Proof. apply prepared_or_empty_Ok, sample_raw_readable. Qed.

Lemma example_df_prepared : prepare example_lib example_raw = Ok example_df.
Proof. apply prepared_or_empty_Ok, example_raw_readable. Qed.

(** ** Floating-point numbers

    The operations on primitive floats are specified by the rounding of the
    library's [SpecFloat]; the facts below are read off that rounding. *)

(** *** Digits *)






(** *** Shifting to the right *)



Lemma pow2_double (k : Z) : 0 ≤ k → 2 ^ k * 2 ^ k = 2 ^ (2 * k).
Proof. intros. rewrite <-Z.pow_add_r by lia. f_equal. lia. Qed.

















(** *** The operations of line 26 *)





(** *** Primitive floats by their class *)









(** ** The derived columns *)





(** C7.  In every row of the prepared table the period is the text of the
    raw period; the start year is the integer its first four characters read
    as, and the formatted period is those four characters, a slash, and the
    rest of the period.  On the second example table the start years are
    2019, 2019, 2019, 2020 and 2020, and the formatted periods are the
    periods with the slash after the fourth character. *)
Theorem period_columns_derived :
  (∀ (lib : Library) (raw : list RawRow) (df : list Row),
     prepare lib raw = Ok df → Forall2 (period_derived lib) raw df) ∧
  start_year <$> sample_df = [2019; 2019; 2019; 2020; 2020] ∧
  time_period <$> sample_df = ["201920"; "201920"; "201920"; "２０２０２１"; "202021"] ∧
  formatted_time_period <$> sample_df
  = ["2019/20"; "2019/20"; "2019/20"; "２０２０/２１"; "2020/21"].
Proof.
  split; [|repeat split; vm_compute; reflexivity].
  intros lib raw df H%prepare_rows. eapply Forall2_impl; [exact H|].
  intros rr r Hr. apply prepare_row_fields in Hr as [(_ & _ & Htp & Hf & Hy & _) _].
  split.
  { unfold period_text. destruct (raw_time_period rr); simpl in Htp; congruence. }
  exists (Str.slice_to 4 (time_period r)), (Str.slice_from 4 (time_period r)).
  destruct (slices_exist 4 (time_period r)) as (Hsplit & Htail & Hlen).
  done.
Qed.

Lemma period_columns_derived_sample :
  Forall2 (period_derived example_lib) sample_raw sample_df.
Proof.
  exact (proj1 period_columns_derived example_lib sample_raw sample_df sample_df_prepared).
Defined.

(** X6.  For a period read as a six-digit integer, the start year of the
    prepared row is the period divided by 100, and the formatted period is
    that year, a slash, and what follows the first four digits. *)
Theorem six_digit_period (lib : Library) (raw : list RawRow) (df : list Row) :
  prepare lib raw = Ok df →
  Forall2 (λ rr r, ∀ n,
     raw_time_period rr = PInt n → 100000 ≤ n ≤ 999999 →
     start_year r = n `div` 100 ∧
     formatted_time_period r
     = Str.str (n `div` 100) +:+ "/" +:+ Str.slice_from 4 (Str.str n)) raw df.
Proof.
  intros H%prepare_rows. eapply Forall2_impl; [exact H|].
  intros rr r Hr n Hn Hrange.
  apply prepare_row_fields in Hr as [(_ & _ & Htp & Hf & Hy & _) _].
  rewrite Hn in Htp. simpl in Htp. injection Htp as Htp. rewrite Hf, <-Htp in *.
  rewrite slice_to_str_hundreds in Hy by done.
  unfold Str.str in Hy. rewrite int_pretty_Z in Hy.
  injection Hy as <-. split; [done|].
  unfold format_period. by rewrite slice_to_str_hundreds.
Qed.

Lemma six_digit_period_sample :
  Forall2 (λ rr r, ∀ n,
     raw_time_period rr = PInt n → 100000 ≤ n ≤ 999999 →
     start_year r = n `div` 100 ∧
     formatted_time_period r
     = Str.str (n `div` 100) +:+ "/" +:+ Str.slice_from 4 (Str.str n))
    example_raw example_df.
Proof.
  exact (six_digit_period example_lib example_raw example_df example_df_prepared).
Defined.

(** ** Grouping *)

Lemma elem_of_insert_key x k ks : x ∈ insert_key k ks ↔ x = k ∨ x ∈ ks.
Proof.
  induction ks as [|k' ks IH]; simpl.
  - rewrite list_elem_of_singleton, elem_of_nil. tauto.
  - repeat case_decide; subst; rewrite ?elem_of_cons, ?IH; tauto.
Qed.

Lemma elem_of_group_keys x ks : x ∈ group_keys ks ↔ x ∈ ks.
Proof.
  unfold group_keys. induction ks as [|k ks IH]; simpl; [done|].
  rewrite elem_of_insert_key, elem_of_cons, IH. done.
Qed.

Lemma insert_key_sorted k ks :
  StronglySorted Z.lt ks → StronglySorted Z.lt (insert_key k ks).
Proof.
  induction 1 as [|k' ks Hks IH Hall]; simpl.
  - repeat constructor.
  - repeat case_decide.
    + constructor; [by constructor|]. constructor; [done|].
      eapply Forall_impl; [exact Hall|]. simpl. lia.
    + by constructor.
    + constructor; [done|]. apply Forall_forall. intros x Hx.
      apply elem_of_insert_key in Hx as [->|Hx]; [lia|].
      by eapply Forall_forall in Hall.
Qed.

Lemma group_keys_sorted ks : StronglySorted Z.lt (group_keys ks).
Proof.
  unfold group_keys. induction ks; simpl; [constructor|by apply insert_key_sorted].
Qed.

Lemma group_keys_NoDup ks : NoDup (group_keys ks).
Proof.
  induction (group_keys_sorted ks) as [|k l _ IH Hall]; constructor; [|done].
  intros Hk. eapply Forall_forall in Hall; [|exact Hk]. lia.
Qed.

Lemma elem_of_year_columns y df : y ∈ year_columns df ↔ ∃ r, r ∈ df ∧ start_year r = y.
Proof.
  unfold year_columns. rewrite elem_of_group_keys, list_elem_of_fmap.
  split; intros (r & ? & ?); by exists r.
Qed.

Lemma groupby_keys {A} (key : A → Z) (df : list A) :
  (groupby key df).*1 = group_keys (key <$> df).
Proof.
  unfold groupby. rewrite <-list_fmap_compose. simpl. apply list_fmap_id.
Qed.

(** ** Records *)

Lemma dict_snoc kvs k v : dict (kvs ++ [(k, v)]) = <[k := v]> (dict kvs).
Proof. unfold dict. by rewrite foldl_snoc. Qed.

Lemma dict_reverse kvs : dict kvs = list_to_map (reverse kvs).
Proof.
  induction kvs as [|[k v] kvs IH] using rev_ind; [done|].
  by rewrite dict_snoc, reverse_snoc, list_to_map_cons, IH.
Qed.

Lemma dict_lookup kvs k v :
  NoDup kvs.*1 → (k, v) ∈ kvs → dict kvs !! k = Some v.
Proof.
  intros Hnd Hin. rewrite dict_reverse. apply elem_of_list_to_map_1.
  - by rewrite fmap_reverse, reverse_Permutation.
  - by apply elem_of_reverse.
Qed.

Lemma dict_lookup_is_Some kvs k : is_Some (dict kvs !! k) → k ∈ kvs.*1.
Proof.
  rewrite dict_reverse. intros [v Hv]. apply elem_of_list_to_map_2 in Hv.
  rewrite elem_of_reverse in Hv. apply list_elem_of_fmap. by exists (k, v).
Qed.

(** ** Year headers *)

(** The digits never produce a string that starts with the letter [c] when
    [c] is no digit. *)
Lemma pretty_N_go_head (c : ascii) (x : N) (s s' : string) :
  (∀ d, pretty_N_char d ≠ c) → s ≠ String c s' → pretty_N_go x s ≠ String c s'.
Proof.
  intros Hc. revert s. induction (N.lt_wf_0 x) as [x _ IH]. intros s Hs.
  destruct (decide (x = 0)%N) as [->|Hx].
  - by rewrite pretty_N_go_0.
  - rewrite pretty_N_go_step by lia. apply IH.
    + apply N.div_lt; lia.
    + intros [= Hd _]. by apply Hc in Hd.
Qed.

Lemma str_not_Indicator (y : Z) : Str.str y ≠ "Indicator".
Proof.
  unfold Str.str, pretty, pretty_Z. destruct y as [|p|p]; [done| |done].
  unfold pretty, pretty_positive, pretty, pretty_N.
  rewrite decide_False by done.
  apply pretty_N_go_head; [|done].
  intros d. unfold pretty_N_char. by repeat case_match.
Qed.

#[global] Instance str_inj : Inj (=) (=) Str.str.
Proof. unfold Str.str. apply _. Qed.

(** ** The table in closed form *)

Lemma table_record_keys_NoDup filtered :
  NoDup ("Indicator" :: (Str.str <$> year_columns filtered)).
Proof.
  apply NoDup_cons. split.
  - intros (y & Hy & _)%list_elem_of_fmap. by eapply str_not_Indicator.
  - apply NoDup_fmap; [apply _|]. apply group_keys_NoDup.
Qed.

Lemma table_record_fst filtered col :
  (("Indicator", VStr col)
     :: ((λ y, (Str.str y, VFloat (mean (float_of col <$> rows_of_year y filtered))))
           <$> year_columns filtered)).*1
  = "Indicator" :: (Str.str <$> year_columns filtered).
Proof. csimpl. f_equal. rewrite <-list_fmap_compose. by apply list_fmap_ext. Qed.

Lemma table_record_indicator filtered col :
  table_record filtered col !! "Indicator" = Some (VStr col).
Proof.
  unfold table_record. apply dict_lookup; [|left].
  rewrite table_record_fst. apply table_record_keys_NoDup.
Qed.

Lemma table_record_year filtered col y :
  y ∈ year_columns filtered →
  table_record filtered col !! Str.str y
  = Some (VFloat (mean (float_of col <$> rows_of_year y filtered))).
Proof.
  intros Hy. unfold table_record. apply dict_lookup.
  - rewrite table_record_fst. apply table_record_keys_NoDup.
  - right. apply list_elem_of_fmap. by exists y.
Qed.

Lemma table_record_keys filtered col k :
  is_Some (table_record filtered col !! k) ↔
  k = "Indicator" ∨ ∃ y, y ∈ year_columns filtered ∧ k = Str.str y.
Proof.
  split.
  - intros Hk%dict_lookup_is_Some. rewrite table_record_fst in Hk.
    apply elem_of_cons in Hk as [->|(y & -> & Hy)%list_elem_of_fmap]; eauto.
  - intros [->|(y & Hy & ->)].
    + by rewrite table_record_indicator.
    + by rewrite table_record_year.
Qed.

Lemma filter_fmap {A B} (f : A → B) (P : B → Prop) `{!∀ b, Decision (P b)} (l : list A) :
  filter P (f <$> l) = f <$> filter (P ∘ f) l.
Proof.
  induction l as [|a l IH]; [done|]. csimpl.
  rewrite !filter_cons. simpl. destruct (decide (P (f a))); csimpl; by rewrite IH.
Qed.

Lemma fmap_zip_diag {A B C} (f : A → B) (g : A → C) (l : list A) :
  zip (f <$> l) (g <$> l) = (λ a, (f a, g a)) <$> l.
Proof. induction l; by f_equal/=. Qed.

Lemma zip_with_fmap_diag {A B C D} (h : B → C → D) (f : A → B) (g : A → C) (l : list A) :
  zip_with h (f <$> l) (g <$> l) = (λ a, h (f a) (g a)) <$> l.
Proof. induction l; by f_equal/=. Qed.

(** Transposing a matrix given by its rows gives it by its columns. *)
Lemma matrix_flip {A B} (F : Z → A → B) (d : B) (ys : list Z) (cs : list A) :
  (λ j, (λ row, default d (row !! j)) <$> ((λ y, (λ c, F y c) <$> cs) <$> ys))
    <$> seq 0 (length cs)
  = (λ c, (λ y, F y c) <$> ys) <$> cs.
Proof.
  rewrite <-imap_seq_0. apply list_eq. intros i.
  rewrite list_lookup_imap, list_lookup_fmap.
  destruct (cs !! i) as [c|] eqn:Hc; [|done]. simpl. f_equal.
  rewrite <-list_fmap_compose. apply list_fmap_ext. intros _ y _. simpl.
  by rewrite list_lookup_fmap, Hc.
Qed.

Lemma column_numeric r col mode :
  numeric_row r → col ∈ indicator_columns mode → column col r = Ok (Num (float_of col r)).
Proof.
  intros Hr Hcol. unfold float_of, column.
  case_decide; [done|].
  destruct (Hr col) as [x Hx].
  { unfold indicator_columns in Hcol. apply elem_of_cons in Hcol as [?|Hcol]; [done|].
    apply elem_of_app. case_decide; auto. }
  by rewrite Hx.
Qed.

Lemma select_columns_numeric cols (f : string → Row → float) df :
  (∀ r col, r ∈ df → col ∈ cols → column col r = Ok (Num (f col r))) →
  select_columns cols df
  = Ok ((λ r, (start_year r, (λ c, Num (f c r)) <$> cols)) <$> df).
Proof.
  intros H. unfold select_columns. apply mapM_Ok_fmap. intros r Hr.
  rewrite (mapM_Ok_fmap _ (λ c, Num (f c r))); [done|]. auto.
Qed.

Lemma groupby_mean_closed cols (f : string → Row → float) df :
  groupby_mean cols ((λ r, (start_year r, (λ c, Num (f c r)) <$> cols)) <$> df)
  = Ok (mkFrame (LInt <$> year_columns df) (LStr <$> cols)
          ((λ y, (λ c, VFloat (mean (f c <$> rows_of_year y df))) <$> cols)
             <$> year_columns df)).
Proof.
  unfold groupby_mean.
  rewrite (mapM_Ok_fmap _
    (λ row, (row.1, (λ c, match c with Num x => x | Text _ => nan end) <$> row.2))).
  2:{ intros row (r & -> & _)%list_elem_of_fmap. simpl.
      rewrite (mapM_Ok_fmap _ (λ c, match c with Num x => x | Text _ => nan end));
        [done|].
      by intros c (col & -> & _)%list_elem_of_fmap. }
  cbn [mbind result_bind mret result_ret]. f_equal.
  rewrite <-list_fmap_compose.
  rewrite (list_fmap_ext _ (λ r, (start_year r, (λ c, f c r) <$> cols)) df).
  2:{ intros _ r _. simpl. f_equal. rewrite <-list_fmap_compose. done. }
  unfold groupby. rewrite <-!list_fmap_compose.
  rewrite (list_fmap_ext (fst ∘ _) start_year df) by done.
  fold (year_columns df). f_equal.
  apply list_fmap_ext. intros _ y _. simpl.
  rewrite filter_fmap. rewrite <-imap_seq_0.
  apply list_eq. intros i. rewrite list_lookup_imap, list_lookup_fmap.
  destruct (cols !! i) as [c|] eqn:Hc; [|done]. simpl. do 3 f_equal.
  rewrite <-list_fmap_compose. apply list_fmap_ext. intros _ r _. simpl.
  by rewrite list_lookup_fmap, Hc.
Qed.

Lemma reset_index_years (names : list string) (ys : list Z) (rows : list (list value)) :
  reset_index (mkFrame (LStr <$> names) (LInt <$> ys) rows)
  = Ok (mkFrame (LInt ∘ Z.of_nat <$> seq 0 (length names))
                (LStr "index" :: (LInt <$> ys))
                (zip_with (λ l row, label_value l :: row) (LStr <$> names) rows)).
Proof.
  unfold reset_index. cbn [columns index data].
  assert (∀ s, LStr s ∉ LInt <$> ys) as Hfresh.
  { by intros s (? & ? & _)%list_elem_of_fmap. }
  rewrite (decide_False (P := LStr "index" ∈ _)) by apply Hfresh.
  rewrite decide_False by apply Hfresh.
  by rewrite length_fmap.
Qed.

Lemma renamed_columns (ys : list Z) :
  label_str <$> ((λ c, if decide (c = LStr "index") then LStr "Indicator" else c)
                   <$> (LStr "index" :: (LInt <$> ys)))
  = "Indicator" :: (Str.str <$> ys).
Proof.
  csimpl. f_equal. rewrite <-!list_fmap_compose. by apply list_fmap_ext.
Qed.

(** On a table whose percentage and absolute columns hold floats, and for a
    list of subjects, [update_table] returns one record per indicator and one
    column descriptor per header. *)
Lemma update_table_closed df s e mode ch subs :
  Forall numeric_row df →
  let filtered := filter (mask s e ch subs) df in
  update_table df s e mode ch (Several subs)
  = Ok (table_record filtered <$> indicator_columns mode,
        (λ c, mkColumnSpec c c) <$> ("Indicator" :: (Str.str <$> year_columns filtered))).
Proof.
  intros Hdf filtered. unfold update_table.
  cbn [isin mbind result_bind]. fold filtered.
  assert (Forall numeric_row filtered) as Hf.
  { apply Forall_forall. intros r [_ Hr]%list_elem_of_filter.
    by eapply Forall_forall in Hdf. }
  assert ((if decide (mode = "percentage") then mret percentage_columns
           else mapM abs_col_name percentage_columns)
          = Ok (tail (indicator_columns mode))) as ->.
  { unfold indicator_columns. by case_decide. }
  cbn [mbind result_bind].
  change (base_columns ++ tail (indicator_columns mode))%list with (indicator_columns mode).
  set (cols := indicator_columns mode).
  rewrite (select_columns_numeric cols float_of).
  2:{ intros r col Hr Hcol. eapply column_numeric; [|exact Hcol].
      by eapply Forall_forall in Hf. }
  cbn [mbind result_bind]. rewrite groupby_mean_closed.
  cbn [mbind result_bind]. unfold transpose. cbn [columns index data].
  rewrite length_fmap, matrix_flip, reset_index_years.
  cbn [mbind result_bind mret result_ret].
  unfold to_dict_records, map_columns, rename_column. cbn [columns index data].
  rewrite renamed_columns. f_equal. f_equal.
  rewrite zip_with_fmap_diag, <-list_fmap_compose.
  apply list_fmap_ext. intros _ c _. simpl. unfold table_record. f_equal. f_equal.
  rewrite fmap_zip_diag. done.
Qed.

(** ** The summary table *)

Lemma mean_step_missing (st : Z * float * float) (xs : list float) :
  foldl mean_step st xs = foldl mean_step st (filter (λ x, is_nan x = false) xs).
Proof.
  revert st. induction xs as [|x xs IH]; intros st; [done|].
  rewrite filter_cons. destruct (is_nan x) eqn:Hx.
  - rewrite decide_False by done. simpl. rewrite <-IH. f_equal.
    destruct st as [[nobs sumx] c]. simpl. by rewrite Hx.
  - rewrite decide_True by done. simpl. apply IH.
Qed.

Lemma mean_ignores_missing (xs : list float) :
  mean xs = mean (filter (λ x, is_nan x = false) xs).
Proof. unfold mean. by rewrite <-mean_step_missing. Qed.

(** The rows of one year among the filtered ones, with the filter written
    out. *)
Lemma rows_of_year_mask (s e : Z) (ch : string) (subs : list string) (y : Z) (df : list Row) :
  rows_of_year y (filter (mask s e ch subs) df)
  = filter (λ r, s ≤ start_year r ∧ start_year r ≤ e ∧ characteristic_value r = ch ∧
                 subject_name r ∈ subs ∧ start_year r = y) df.
Proof.
  unfold rows_of_year. rewrite list_filter_filter. apply list_filter_iff.
  intros r. unfold mask. tauto.
Qed.

Lemma large_raw_readable : Forall (readable example_lib) large_raw.
Proof. readable_rows. Qed.

Lemma repeated_raw_readable : Forall (readable example_lib) repeated_raw.
Proof. readable_rows. Qed.

(** C2.  For a prepared table and any list of subjects, [update_table]
    returns one record per indicator; its cell under a year's header is the
    float64 mean of that indicator over the rows that pass the filter and
    start in that year: the values that are not missing are added in row
    order by compensated summation and the sum is divided by their number;
    an entry count enters as the float64 nearest to it.  Missing values do
    not change a mean, and the mean of nothing is missing.  On the example
    table the entry-count record reads 100, 120, 110 and the A* record
    10, 12, 11 under the headers 2019, 2020, 2021; on the second table two
    subjects are averaged, suppressed cells left out; and the mean of three
    percentages 99.9 is 99.90000000000002. *)
Theorem update_table_means :
  (∀ (lib : Library) (raw : list RawRow) (df : list Row)
     (start_date end_date : Z) (indicator_type characteristic : string)
     (subjects : list string),
     prepare lib raw = Ok df →
     ∃ records table_columns,
       update_table df start_date end_date indicator_type characteristic
                    (Several subjects) = Ok (records, table_columns) ∧
       Forall2 (λ col record,
          record !! "Indicator" = Some (VStr col) ∧
          ∀ y,
            let rows :=
              filter (λ r, start_date ≤ start_year r ∧ start_year r ≤ end_date ∧
                           characteristic_value r = characteristic ∧
                           subject_name r ∈ subjects ∧ start_year r = y) df in
            rows ≠ [] →
            record !! Str.str y = Some (VFloat (mean (float_of col <$> rows))))
         (indicator_columns indicator_type) records) ∧
  (∀ xs, mean xs = mean (filter (λ x, is_nan x = false) xs)) ∧
  mean [] = nan ∧
  (∃ records table_columns,
     update_table example_df 2019 2021 "percentage" "All Students"
                  (Several ["Mathematics"]) = Ok (records, table_columns) ∧
     name <$> table_columns = ["Indicator"; "2019"; "2020"; "2021"] ∧
     records !! 0%nat
     = Some (dict [("Indicator", VStr "entry_count");
                   ("2019", VFloat 100); ("2020", VFloat 120); ("2021", VFloat 110)]) ∧
     records !! 1%nat
     = Some (dict [("Indicator", VStr "perc_astar_grade_achieved");
                   ("2019", VFloat 10); ("2020", VFloat 12); ("2021", VFloat 11)])) ∧
  (λ out : list (gmap string value) * list ColumnSpec,
     ((λ record, (record !! "Indicator", record !! "2019", record !! "2020")) <$> out.1,
      name <$> out.2))
    <$> update_table sample_df 2019 2020 "percentage" "All Students"
          (Several ["Mathematics"; "Physics"])
  = Ok ([ (Some (VStr "entry_count"), Some (VFloat 70), Some (VFloat 90));
          (Some (VStr "perc_astar_grade_achieved"), Some (VFloat 17.5), Some (VFloat 16));
          (Some (VStr "perc_astar_a_grade_achieved"), Some (VFloat 50), Some (VFloat 35));
          (Some (VStr "perc_astar_b_grade_achieved"), Some (VFloat 60), Some (VFloat 60));
          (Some (VStr "perc_astar_c_grade_achieved"), Some (VFloat 80), Some (VFloat 80));
          (Some (VStr "perc_astar_d_grade_achieved"), Some (VFloat nan), Some (VFloat nan));
          (Some (VStr "perc_astar_e_grade_achieved"), Some (VFloat nan), Some (VFloat nan)) ],
        ["Indicator"; "2019"; "2020"]) ∧
  (λ out, (λ record : gmap string value, record !! "2019") <$> out.1 !! 1%nat)
    <$> update_table repeated_df 2019 2019 "percentage" "All Students"
          (Several ["Mathematics"; "Physics"; "Chemistry"])
  = Ok (Some (Some (VFloat 99.90000000000002))).
Proof.
  split; [|split; [apply mean_ignores_missing|split; [reflexivity|split; [|split]]]].
  - intros lib raw df s e mode ch subs Hdf.
    eexists _, _. split.
    { apply update_table_closed. by eapply prepared_numeric. }
    apply Forall2_fmap_r, Forall_Forall2_diag, Forall_forall.
    intros col _. split; [apply table_record_indicator|].
    intros y rows Hrows. unfold rows in *. rewrite <-rows_of_year_mask in *.
    apply table_record_year, elem_of_year_columns.
    destruct (rows_of_year y _) as [|r rows'] eqn:Hr; [done|].
    assert (r ∈ rows_of_year y (filter (mask s e ch subs) df)) as Hin
      by (rewrite Hr; left).
    apply list_elem_of_filter in Hin as [Hy Hin]. by exists r.
  - eexists _, _. split.
    { apply update_table_closed. eapply prepared_numeric, example_df_prepared. }
    repeat split; vm_compute; reflexivity.
  - vm_compute. reflexivity.
  - vm_compute. reflexivity.
Qed.

Lemma update_table_means_sample :
  ∃ records table_columns,
    update_table sample_df 2019 2020 "absolute" "All Students"
                 (Several ["Mathematics"; "Physics"]) = Ok (records, table_columns) ∧
    Forall2 (λ col record,
       record !! "Indicator" = Some (VStr col) ∧
       ∀ y,
         let rows :=
           filter (λ r, 2019 ≤ start_year r ∧ start_year r ≤ 2020 ∧
                        characteristic_value r = "All Students" ∧
                        subject_name r ∈ ["Mathematics"; "Physics"] ∧ start_year r = y)
                  sample_df in
         rows ≠ [] →
         record !! Str.str y = Some (VFloat (mean (float_of col <$> rows))))
      (indicator_columns "absolute") records.
Proof.
  exact (proj1 update_table_means example_lib sample_raw sample_df 2019 2020
           "absolute" "All Students" ["Mathematics"; "Physics"] sample_df_prepared).
Defined.

(** One row with 9007199254740993 entries: the cell of the table is
    9007199254740992, which is not the arithmetic mean of the entry
    counts. *)
Lemma update_table_means_inexact :
  prepare example_lib large_raw = Ok large_df ∧
  entry_count <$> filter (λ r, 2019 ≤ start_year r ∧ start_year r ≤ 2019 ∧
                               characteristic_value r = "All Students" ∧
                               subject_name r ∈ ["Mathematics"] ∧ start_year r = 2019)
                         large_df
  = [9007199254740993] ∧
  (λ out, (λ record : gmap string value, (record !! "Indicator", record !! "2019"))
            <$> out.1 !! 0%nat)
    <$> update_table large_df 2019 2019 "percentage" "All Students" (Several ["Mathematics"])
  = Ok (Some (Some (VStr "entry_count"), Some (VFloat 9007199254740992))) ∧
  ¬ same_number (float_value 9007199254740992)
                (arithmetic_mean (inject_Z <$> [9007199254740993])).
Proof.
  split; [apply prepared_or_empty_Ok, large_raw_readable|].
  split; [vm_compute; reflexivity|]. split; [vm_compute; reflexivity|].
  vm_compute. discriminate.
Qed.

(** C5.  For a prepared table and any list of subjects, every header of the
    table that [update_table] returns, in the column descriptors and in the
    records alike, is either the indicator header or the rendering of a start
    year of the table that lies between the start date and the end date. *)
Theorem update_table_years_in_range (lib : Library)
    (raw : list RawRow) (df : list Row) (start_date end_date : Z)
    (indicator_type characteristic : string) (subjects : list string) :
  prepare lib raw = Ok df →
  ∃ records table_columns,
    update_table df start_date end_date indicator_type characteristic
                 (Several subjects) = Ok (records, table_columns) ∧
    (∀ c, c ∈ table_columns →
       name c = "Indicator" ∨
       ∃ y, name c = Str.str y ∧ start_date ≤ y ≤ end_date ∧ y ∈ start_year <$> df) ∧
    (∀ record k, record ∈ records → is_Some (record !! k) →
       k = "Indicator" ∨
       ∃ y, k = Str.str y ∧ start_date ≤ y ≤ end_date ∧ y ∈ start_year <$> df).
Proof.
  intros Hdf. eexists _, _. split.
  { apply update_table_closed. by eapply prepared_numeric. }
  set (filtered := filter (mask start_date end_date characteristic subjects) df).
  assert (∀ y, y ∈ year_columns filtered →
               start_date ≤ y ≤ end_date ∧ y ∈ start_year <$> df) as Hyears.
  { intros y (r & Hr & <-)%elem_of_year_columns.
    apply list_elem_of_filter in Hr as [(? & ? & _) Hr].
    split; [lia|]. by apply list_elem_of_fmap_2. }
  split.
  - intros c (h & -> & Hh)%list_elem_of_fmap. simpl.
    apply elem_of_cons in Hh as [->|(y & -> & Hy)%list_elem_of_fmap]; [by left|].
    right. exists y. split; [done|]. by apply Hyears.
  - intros record k (col & -> & _)%list_elem_of_fmap Hk.
    apply table_record_keys in Hk as [->|(y & Hy & ->)]; [by left|].
    right. exists y. split; [done|]. by apply Hyears.
Qed.

Lemma update_table_years_in_range_sample :
  ∃ records table_columns,
    update_table sample_df 2020 2025 "percentage" "All Students"
                 (Several ["Mathematics"; "Physics"]) = Ok (records, table_columns) ∧
    (∀ c, c ∈ table_columns →
       name c = "Indicator" ∨
       ∃ y, name c = Str.str y ∧ 2020 ≤ y ≤ 2025 ∧ y ∈ start_year <$> sample_df) ∧
    (∀ record k, record ∈ records → is_Some (record !! k) →
       k = "Indicator" ∨
       ∃ y, k = Str.str y ∧ 2020 ≤ y ≤ 2025 ∧ y ∈ start_year <$> sample_df).
Proof.
  exact (update_table_years_in_range example_lib sample_raw sample_df 2020 2025
           "percentage" "All Students" ["Mathematics"; "Physics"] sample_df_prepared).
Defined.

(** C6.  For a prepared table and any list of subjects, the headers of the
    table are strings, the indicator header followed by the years rendered as
    text, and the records come in the fixed order of the indicators: the
    entry count, then the six grade bands from A* to A*-E. *)
Theorem update_table_layout (lib : Library)
    (raw : list RawRow) (df : list Row) (start_date end_date : Z)
    (indicator_type characteristic : string) (subjects : list string) :
  prepare lib raw = Ok df →
  let filtered := filter (mask start_date end_date characteristic subjects) df in
  ∃ records table_columns,
    update_table df start_date end_date indicator_type characteristic
                 (Several subjects) = Ok (records, table_columns) ∧
    table_columns
    = (λ h : string, mkColumnSpec h h) <$> ("Indicator" :: (Str.str <$> year_columns filtered)) ∧
    (λ record : gmap string value, record !! "Indicator") <$> records
    = Some ∘ VStr <$>
        ("entry_count" ::
           (if decide (indicator_type = "percentage")
            then [ "perc_astar_grade_achieved"; "perc_astar_a_grade_achieved";
                   "perc_astar_b_grade_achieved"; "perc_astar_c_grade_achieved";
                   "perc_astar_d_grade_achieved"; "perc_astar_e_grade_achieved" ]
            else [ "abs_astar_grade_grade_achieved"; "abs_astar_a_grade_achieved";
                   "abs_astar_b_grade_achieved"; "abs_astar_c_grade_achieved";
                   "abs_astar_d_grade_achieved"; "abs_astar_e_grade_achieved" ])).
Proof.
  intros Hdf filtered. eexists _, _. split.
  { apply update_table_closed. by eapply prepared_numeric. }
  split; [done|]. fold filtered.
  rewrite <-list_fmap_compose.
  change ("entry_count" :: _) with (indicator_columns indicator_type).
  apply list_fmap_ext. intros _ col _. simpl. apply table_record_indicator.
Qed.

Lemma update_table_layout_sample :
  let filtered := filter (mask 2019 2020 "Female" ["Mathematics"]) sample_df in
  ∃ records table_columns,
    update_table sample_df 2019 2020 "absolute" "Female" (Several ["Mathematics"])
    = Ok (records, table_columns) ∧
    table_columns
    = (λ h : string, mkColumnSpec h h) <$> ("Indicator" :: (Str.str <$> year_columns filtered)) ∧
    (λ record : gmap string value, record !! "Indicator") <$> records
    = Some ∘ VStr <$>
        ("entry_count" ::
           (if decide ("absolute" = "percentage")
            then [ "perc_astar_grade_achieved"; "perc_astar_a_grade_achieved";
                   "perc_astar_b_grade_achieved"; "perc_astar_c_grade_achieved";
                   "perc_astar_d_grade_achieved"; "perc_astar_e_grade_achieved" ]
            else [ "abs_astar_grade_grade_achieved"; "abs_astar_a_grade_achieved";
                   "abs_astar_b_grade_achieved"; "abs_astar_c_grade_achieved";
                   "abs_astar_d_grade_achieved"; "abs_astar_e_grade_achieved" ])).
Proof.
  exact (update_table_layout example_lib sample_raw sample_df 2019 2020
           "absolute" "Female" ["Mathematics"] sample_df_prepared).
Defined.

Lemma percentage_not_absolute : Forall (λ c, c ∉ absolute_columns) percentage_columns.
Proof. repeat constructor; by apply (bool_decide_unpack _). Qed.

(** C8.  For a prepared table and one filter, the percentage table and the
    absolute table have the same column descriptors and the same entry-count
    record; the six records that follow are named after the percentage
    columns in the one and after the absolute columns in the other, no name
    is shared, and every record has the headers of the entry-count record. *)
Theorem update_table_modes (lib : Library)
    (raw : list RawRow) (df : list Row) (start_date end_date : Z)
    (characteristic : string) (subjects : list string) :
  prepare lib raw = Ok df →
  ∃ entries perc_records abs_records table_columns,
    update_table df start_date end_date "percentage" characteristic (Several subjects)
    = Ok (entries :: perc_records, table_columns) ∧
    update_table df start_date end_date "absolute" characteristic (Several subjects)
    = Ok (entries :: abs_records, table_columns) ∧
    entries !! "Indicator" = Some (VStr "entry_count") ∧
    (λ record : gmap string value, record !! "Indicator") <$> perc_records
    = Some ∘ VStr <$> percentage_columns ∧
    (λ record : gmap string value, record !! "Indicator") <$> abs_records
    = Some ∘ VStr <$> absolute_columns ∧
    Forall (λ c, c ∉ absolute_columns) percentage_columns ∧
    Forall (λ record : gmap string value,
              ∀ k, is_Some (record !! k) ↔ is_Some (entries !! k))
           (perc_records ++ abs_records).
Proof.
  intros Hdf%prepared_numeric.
  set (filtered := filter (mask start_date end_date characteristic subjects) df).
  exists (table_record filtered "entry_count"),
         (table_record filtered <$> percentage_columns),
         (table_record filtered <$> absolute_columns),
         ((λ c, mkColumnSpec c c) <$> ("Indicator" :: (Str.str <$> year_columns filtered))).
  split; [by apply update_table_closed|].
  split; [by apply update_table_closed|].
  split; [apply table_record_indicator|].
  assert (∀ cols : list string, (λ record : gmap string value, record !! "Indicator")
                    <$> (table_record filtered <$> cols) = Some ∘ VStr <$> cols) as Hnames.
  { intros cols. rewrite <-list_fmap_compose. apply list_fmap_ext.
    intros _ col _. simpl. apply table_record_indicator. }
  split; [apply Hnames|]. split; [apply Hnames|].
  split; [apply percentage_not_absolute|].
  rewrite <-fmap_app. apply Forall_fmap, Forall_forall. intros col _ k. simpl.
  by rewrite !table_record_keys.
Qed.

Lemma update_table_modes_sample :
  ∃ entries perc_records abs_records table_columns,
    update_table sample_df 2019 2020 "percentage" "All Students" (Several ["Physics"])
    = Ok (entries :: perc_records, table_columns) ∧
    update_table sample_df 2019 2020 "absolute" "All Students" (Several ["Physics"])
    = Ok (entries :: abs_records, table_columns) ∧
    entries !! "Indicator" = Some (VStr "entry_count") ∧
    (λ record : gmap string value, record !! "Indicator") <$> perc_records
    = Some ∘ VStr <$> percentage_columns ∧
    (λ record : gmap string value, record !! "Indicator") <$> abs_records
    = Some ∘ VStr <$> absolute_columns ∧
    Forall (λ c, c ∉ absolute_columns) percentage_columns ∧
    Forall (λ record : gmap string value,
              ∀ k, is_Some (record !! k) ↔ is_Some (entries !! k))
           (perc_records ++ abs_records).
Proof.
  exact (update_table_modes example_lib sample_raw sample_df 2019 2020
           "All Students" ["Physics"] sample_df_prepared).
Defined.

(** ** The line chart *)

Lemma groupby_sum_years df : (groupby_sum df).*1 = year_columns df.
Proof.
  unfold groupby_sum. rewrite <-list_fmap_compose.
  rewrite (list_fmap_ext _ fst (groupby start_year df)) by done.
  apply groupby_keys.
Qed.

Lemma groupby_sum_totals df :
  (groupby_sum df).*2
  = (λ y, isum (entry_count <$> rows_of_year y df)) <$> year_columns df.
Proof.
  unfold groupby_sum, groupby. rewrite <-!list_fmap_compose. done.
Qed.

Lemma mask_empty_subjects s e ch (df : list Row) : filter (mask s e ch []) df = [].
Proof.
  induction df as [|r df IH]; [done|]. rewrite filter_cons_False; [done|].
  intros (_ & _ & _ & []%elem_of_nil).
Qed.

Lemma mask_inverted_range s e ch subs (df : list Row) :
  e < s → filter (mask s e ch subs) df = [].
Proof.
  intros Hes. induction df as [|r df IH]; [done|]. rewrite filter_cons_False; [done|].
  intros (? & ? & _). lia.
Qed.

(** *** Sums of 64-bit integers *)

Lemma wrap64_int64 (z : Z) : int64 (wrap64 z).
Proof. unfold int64, wrap64. pose proof (Z.mod_pos_bound (z + 2 ^ 63) (2 ^ 64)). lia. Qed.

Lemma wrap64_id (z : Z) : int64 z → wrap64 z = z.
Proof. unfold int64, wrap64. intros Hz. rewrite Z.mod_small by lia. lia. Qed.

Lemma wrap64_congruent (z : Z) : (wrap64 z - z) mod 2 ^ 64 = 0.
Proof.
  unfold wrap64.
  replace ((z + 2 ^ 63) mod 2 ^ 64 - 2 ^ 63 - z)
    with ((z + 2 ^ 63) mod 2 ^ 64 - (z + 2 ^ 63)) by lia.
  rewrite Zminus_mod, Z.mod_mod, Z.sub_diag by lia. done.
Qed.

Lemma wrap64_add (u v : Z) : wrap64 (wrap64 u + v) = wrap64 (u + v).
Proof.
  unfold wrap64. f_equal.
  replace ((u + 2 ^ 63) mod 2 ^ 64 - 2 ^ 63 + v + 2 ^ 63)
    with ((u + 2 ^ 63) mod 2 ^ 64 + v) by lia.
  rewrite Z.add_mod_idemp_l by lia. f_equal. lia.
Qed.

Lemma foldl_wrap64 (a : Z) (xs : list Z) :
  foldl (λ acc x, wrap64 (acc + x)) (wrap64 a) xs = wrap64 (a + exact_sum xs).
Proof.
  revert a. induction xs as [|x xs IH]; intros a; simpl.
  - f_equal. lia.
  - rewrite wrap64_add, IH. f_equal. lia.
Qed.

Lemma isum_wrap (xs : list Z) : isum xs = wrap64 (exact_sum xs).
Proof. unfold isum. change 0 with (wrap64 0) at 1. by rewrite foldl_wrap64. Qed.

Lemma exact_sum_nonneg (xs : list Z) : Forall (λ n, 0 ≤ n) xs → 0 ≤ exact_sum xs.
Proof. induction 1; simpl; lia. Qed.

(** The rows behind one point of a subject's line, with the filter written
    out. *)
Lemma rows_of_year_subject (s e : Z) (ch : string) (subs : list string)
    (subject : string) (y : Z) (df : list Row) :
  rows_of_year y (subject_rows df s e ch subs subject)
  = filter (λ r, s ≤ start_year r ∧ start_year r ≤ e ∧ characteristic_value r = ch ∧
                 subject_name r ∈ subs ∧ subject_name r = subject ∧ start_year r = y) df.
Proof.
  unfold rows_of_year, subject_rows. rewrite !list_filter_filter. apply list_filter_iff.
  intros r. unfold mask. tauto.
Qed.

Lemma overflow_raw_readable : Forall (readable example_lib) overflow_raw.
Proof. readable_rows. Qed.

(** C3.  [update_line_chart] returns a figure that holds, for every subject
    of the filter, a line named after the subject and the characteristic;
    its years are the start years of the subject's filtered rows, each once
    and in ascending order, and its value at a year is the sum of the entry
    counts of those rows in that year as a 64-bit integer: it differs from
    the sum by a multiple of 2^64, and it is the sum, and not negative, when
    no entry count is negative and the sum is below 2^63.  On the second
    example table the lines of Mathematics and Physics read 100, 120 and
    40, 60 in 2019 and 2020, and the line of Latin has no point. *)
Theorem update_line_chart_totals :
  (∀ (df : list Row) (start_date end_date : Z) (selected_subjects : subjects_arg)
     (characteristic : string),
     ∃ figure,
       update_line_chart df start_date end_date selected_subjects characteristic
       = Ok figure ∧
       ∀ subject, subject ∈ subject_list selected_subjects →
         ∃ trace, trace ∈ figure_data figure ∧
           trace_name trace = subject +:+ " (" +:+ characteristic +:+ ")" ∧
           StronglySorted Z.lt (trace_x trace) ∧
           (∀ y, y ∈ trace_x trace ↔
                 ∃ r, r ∈ df ∧
                      start_date ≤ start_year r ∧ start_year r ≤ end_date ∧
                      characteristic_value r = characteristic ∧
                      subject_name r ∈ subject_list selected_subjects ∧
                      subject_name r = subject ∧ start_year r = y) ∧
           Forall2 (λ y total,
              let entries :=
                entry_count <$>
                  filter (λ r, start_date ≤ start_year r ∧ start_year r ≤ end_date ∧
                               characteristic_value r = characteristic ∧
                               subject_name r ∈ subject_list selected_subjects ∧
                               subject_name r = subject ∧ start_year r = y) df in
              int64 total ∧ (total - exact_sum entries) mod 2 ^ 64 = 0 ∧
              (Forall (λ n, 0 ≤ n) entries → exact_sum entries < 2 ^ 63 →
               total = exact_sum entries ∧ 0 ≤ total))
             (trace_x trace) (trace_y trace)) ∧
  figure_data <$> update_line_chart sample_df 2019 2020
                    (Several ["Mathematics"; "Physics"; "Latin"]) "All Students"
  = Ok [ mkTrace [2019; 2020] [100; 120] "line" "Mathematics (All Students)";
         mkTrace [2019; 2020] [40; 60] "line" "Physics (All Students)";
         mkTrace [] [] "line" "Latin (All Students)" ].
Proof.
  split; [|vm_compute; reflexivity].
  intros df start_date end_date selected_subjects characteristic.
  eexists. split; [reflexivity|]. intros subject Hsubject.
  eexists. split.
  { cbn [figure_data]. apply list_elem_of_fmap_2. exact Hsubject. }
  cbn [trace_name trace_x trace_y].
  fold (subject_list selected_subjects).
  fold (subject_rows df start_date end_date characteristic
          (subject_list selected_subjects) subject).
  set (rows := subject_rows _ _ _ _ _ _).
  rewrite groupby_sum_years, groupby_sum_totals.
  split; [done|]. split; [apply group_keys_sorted|]. split.
  - intros y. rewrite elem_of_year_columns. unfold rows, subject_rows.
    split.
    + intros (r & Hr & Hy). exists r.
      apply list_elem_of_filter in Hr as [Hs Hr].
      apply list_elem_of_filter in Hr as [(? & ? & ? & ?) Hr]. done.
    + intros (r & Hr & ? & ? & ? & ? & ? & ?). exists r. split; [|done].
      apply list_elem_of_filter. split; [done|].
      apply list_elem_of_filter. by split.
  - apply Forall2_fmap_r, Forall_Forall2_diag, Forall_forall. intros y _.
    unfold compose. cbv beta zeta. unfold rows. rewrite <-rows_of_year_subject, isum_wrap.
    split; [apply wrap64_int64|]. split; [apply wrap64_congruent|].
    intros Hpos%exact_sum_nonneg Hlt.
    rewrite wrap64_id by (unfold int64; lia). done.
Qed.

Lemma update_line_chart_totals_sample :
  ∃ figure,
    update_line_chart sample_df 2019 2020 (Several ["Mathematics"; "Physics"])
                      "All Students" = Ok figure ∧
    ∀ subject, subject ∈ subject_list (Several ["Mathematics"; "Physics"]) →
      ∃ trace, trace ∈ figure_data figure ∧
        trace_name trace = subject +:+ " (" +:+ "All Students" +:+ ")" ∧
        StronglySorted Z.lt (trace_x trace) ∧
        (∀ y, y ∈ trace_x trace ↔
              ∃ r, r ∈ sample_df ∧
                   2019 ≤ start_year r ∧ start_year r ≤ 2020 ∧
                   characteristic_value r = "All Students" ∧
                   subject_name r ∈ subject_list (Several ["Mathematics"; "Physics"]) ∧
                   subject_name r = subject ∧ start_year r = y) ∧
        Forall2 (λ y total,
           let entries :=
             entry_count <$>
               filter (λ r, 2019 ≤ start_year r ∧ start_year r ≤ 2020 ∧
                            characteristic_value r = "All Students" ∧
                            subject_name r ∈ subject_list (Several ["Mathematics"; "Physics"]) ∧
                            subject_name r = subject ∧ start_year r = y) sample_df in
           int64 total ∧ (total - exact_sum entries) mod 2 ^ 64 = 0 ∧
           (Forall (λ n, 0 ≤ n) entries → exact_sum entries < 2 ^ 63 →
            total = exact_sum entries ∧ 0 ≤ total))
          (trace_x trace) (trace_y trace).
Proof.
  exact (proj1 update_line_chart_totals sample_df 2019 2020
           (Several ["Mathematics"; "Physics"]) "All Students").
Defined.

(** Two rows of one subject and year with 9223372036854775807 entries and
    one entry: the point of the line is -9223372036854775808, which is
    negative and is not the sum of the entry counts. *)
Lemma update_line_chart_totals_overflow :
  prepare example_lib overflow_raw = Ok overflow_df ∧
  entry_count <$> filter (λ r, 2019 ≤ start_year r ∧ start_year r ≤ 2019 ∧
                               characteristic_value r = "All Students" ∧
                               subject_name r ∈ ["Mathematics"] ∧
                               subject_name r = "Mathematics" ∧ start_year r = 2019)
                         overflow_df
  = [9223372036854775807; 1] ∧
  figure_data <$> update_line_chart overflow_df 2019 2019 (Several ["Mathematics"])
                    "All Students"
  = Ok [ mkTrace [2019] [-9223372036854775808] "line" "Mathematics (All Students)" ] ∧
  -9223372036854775808 ≠ exact_sum [9223372036854775807; 1] ∧
  ¬ 0 ≤ -9223372036854775808.
Proof.
  split; [apply prepared_or_empty_Ok, overflow_raw_readable|].
  split; [vm_compute; reflexivity|]. split; [vm_compute; reflexivity|].
  split; [by vm_compute|lia].
Qed.

(** C9.  The figure holds exactly one line per element of the subject list,
    in the order of the list; the line of a subject without filtered rows is
    there and has no points, and an empty list gives no line. *)
Theorem update_line_chart_series (df : list Row) (start_date end_date : Z)
    (selected_subjects : subjects_arg) (characteristic : string) :
  ∃ figure,
    update_line_chart df start_date end_date selected_subjects characteristic = Ok figure ∧
    trace_name <$> figure_data figure
    = (λ subject, series_name subject characteristic) <$> subject_list selected_subjects ∧
    (∀ (i : nat) subject trace,
       subject_list selected_subjects !! i = Some subject →
       figure_data figure !! i = Some trace →
       subject_rows df start_date end_date characteristic
                    (subject_list selected_subjects) subject = [] →
       trace_x trace = [] ∧ trace_y trace = []) ∧
    (subject_list selected_subjects = [] → figure_data figure = []).
Proof.
  eexists. split; [reflexivity|]. cbn [figure_data].
  fold (subject_list selected_subjects).
  split; [|split].
  - rewrite <-list_fmap_compose. by apply list_fmap_ext.
  - intros i subject trace Hi Ht Hrows.
    rewrite list_lookup_fmap, Hi in Ht. injection Ht as <-.
    cbn [trace_x trace_y].
    fold (subject_rows df start_date end_date characteristic
            (subject_list selected_subjects) subject).
    by rewrite Hrows.
  - by intros ->.
Qed.

Lemma update_line_chart_series_sample :
  ∃ figure,
    update_line_chart sample_df 2019 2020 (Several ["Latin"; "Physics"])
                      "All Students" = Ok figure ∧
    trace_name <$> figure_data figure
    = (λ subject, series_name subject "All Students")
        <$> subject_list (Several ["Latin"; "Physics"]) ∧
    (∀ (i : nat) subject trace,
       subject_list (Several ["Latin"; "Physics"]) !! i = Some subject →
       figure_data figure !! i = Some trace →
       subject_rows sample_df 2019 2020 "All Students"
                    (subject_list (Several ["Latin"; "Physics"])) subject = [] →
       trace_x trace = [] ∧ trace_y trace = []) ∧
    (subject_list (Several ["Latin"; "Physics"]) = [] → figure_data figure = []).
Proof.
  exact (update_line_chart_series sample_df 2019 2020 (Several ["Latin"; "Physics"])
           "All Students").
Defined.

(** C10.  A single subject given outside a list is treated as the list that
    holds just that subject. *)
Theorem update_line_chart_scalar (df : list Row) (start_date end_date : Z)
    (subject characteristic : string) :
  update_line_chart df start_date end_date (Scalar subject) characteristic
  = update_line_chart df start_date end_date (Several [subject]) characteristic.
Proof. reflexivity. Qed.

(** ** Filters that select nothing, and a subject outside a list *)

Lemma update_table_no_rows df s e mode ch subs :
  Forall numeric_row df → filter (mask s e ch subs) df = [] →
  update_table df s e mode ch (Several subs)
  = Ok ((λ col, {[ "Indicator" := VStr col ]}) <$> indicator_columns mode,
        [mkColumnSpec "Indicator" "Indicator"]).
Proof.
  intros Hdf Hempty. rewrite update_table_closed by done. by rewrite Hempty.
Qed.

(** With an empty subject list or a start date after the end date the
    table has its seven indicator records and no year. *)
Lemma update_table_degenerate lib raw df s e mode ch subs :
  prepare lib raw = Ok df → subs = [] ∨ e < s →
  update_table df s e mode ch (Several subs)
  = Ok ((λ col, {[ "Indicator" := VStr col ]}) <$> indicator_columns mode,
        [mkColumnSpec "Indicator" "Indicator"]).
Proof.
  intros Hdf%prepared_numeric Hcase. apply update_table_no_rows; [done|].
  destruct Hcase as [->|He]; [apply mask_empty_subjects|by apply mask_inverted_range].
Qed.

(** In the same cases the chart has no line, or lines without points. *)
Lemma update_line_chart_degenerate df s e subs ch :
  subs = [] ∨ e < s →
  update_line_chart df s e (Several subs) ch
  = Ok (mkFigure ((λ subject, mkTrace [] [] "line" (series_name subject ch)) <$> subs)
          (mkLayout ("Entries Count Over Time for Selected Subjects (" +:+ ch +:+ ")")
                    "Year" "Entry Count" "plotly_white")).
Proof.
  intros Hcase. unfold update_line_chart.
  assert (filter (mask s e ch subs) df = []) as ->.
  { destruct Hcase as [->|He]; [apply mask_empty_subjects|by apply mask_inverted_range]. }
  done.
Qed.

(** C4.  A subject that arrives outside a list makes [update_table] raise
    [TypeError], where [update_line_chart] wraps it in a list and returns a
    figure. *)
Theorem update_table_scalar_subject (df : list Row) (start_date end_date : Z)
    (indicator_type characteristic subject : string) :
  update_table df start_date end_date indicator_type characteristic (Scalar subject)
  = Err TypeError ∧
  ∃ figure,
    update_line_chart df start_date end_date (Scalar subject) characteristic = Ok figure.
Proof. split; [reflexivity|]. by eexists. Qed.

(** * Further properties of the preparer *)

Lemma mapM_Err_inv {A B} (f : A → result B) (l : list A) e :
  mapM f l = Err e → ∃ x, x ∈ l ∧ f x = Err e.
Proof.
  induction l as [|x l IH]; simpl; [done|].
  destruct (f x) as [y|e'] eqn:Hx; simpl.
  - destruct (mapM f l) as [k|e'] eqn:Hl; simpl; [done|].
    intros [= ->]. destruct IH as (x' & Hx' & He); [done|].
    exists x'. split; [by right|done].
  - intros [= ->]. exists x. split; [left|done].
Qed.

Lemma mapM_Err {A B} (f : A → result B) (l : list A) e :
  (∀ x e', x ∈ l → f x = Err e' → e' = e) →
  Exists (λ x, ∃ e', f x = Err e') l → mapM f l = Err e.
Proof.
  intros Hf Hex. destruct (mapM f l) as [k|e'] eqn:Hl.
  - apply mapM_Ok in Hl. exfalso. clear Hf. induction Hl as [|x y l k Hxy _ IH].
    + by apply Exists_nil in Hex.
    + apply Exists_cons in Hex as [[e' He']|Hex]; [congruence|auto].
  - apply mapM_Err_inv in Hl as (x & Hx & He). f_equal. eauto.
Qed.

Lemma parse_error s e : Str.parse s = Err e → e = ValueError.
Proof.
  unfold Str.parse. set (body := match Str.strip s with "" => _ | _ => _ end).
  destruct body; [done|]. by intros [= <-].
Qed.

Lemma int_error u s e : Str.int u s = Err e → e = ValueError.
Proof.
  unfold Str.int. destruct (Str.to_ascii u _); [apply parse_error|by intros [= <-]].
Qed.

Lemma format_row_error rr e : format_row rr = Err e → e = TypeError.
Proof. unfold format_row. destruct (astype_str _); [done|by intros [= <-]]. Qed.

Section PreparerErrors.

Variable lib : Library.

Lemma year_row_error f e : year_row lib f = Err e → e = ValueError.
Proof.
  destruct f as [[rr x] f]. unfold year_row.
  destruct (Str.int _ _) as [y|e'] eqn:Hy; simpl; [done|].
  intros [= <-]. by eapply int_error.
Qed.

(** Lines 10 to 12 on a table whose periods start with integers. *)
Lemma period_passes raw :
  Forall (period_readable lib) raw →
  ∃ formatted years,
    mapM format_row raw = Ok formatted ∧
    mapM (year_row lib) formatted = Ok years ∧
    Forall2 (λ rr d, draft_count d = raw_entry_count rr ∧
                     draft_cells d = foldr delete (raw_cells rr) assigned_columns)
            raw years.
Proof.
  induction 1 as [|rr raw (x & y & Hx & Hy) _ (formatted & years & Hf & Hy' & IH)].
  - by exists [], [].
  - eexists ((rr, x, format_period x) :: formatted), (_ :: years).
    split; [|split].
    + apply mapM_Ok. constructor; [|by apply mapM_Ok].
      unfold format_row. by rewrite Hx.
    + apply mapM_Ok. constructor; [|by apply mapM_Ok].
      unfold year_row. rewrite Hy. reflexivity.
    + by constructor.
Qed.

Lemma coerce_row_error col d e : coerce_row lib col d = Err e → e = KeyError.
Proof. unfold coerce_row. destruct (draft_cells d !! col); [done|by intros [= <-]]. Qed.

Lemma coerce_rows col df df1 :
  mapM (coerce_row lib col) df = Ok df1 →
  Forall2 (λ d d1, draft_count d1 = draft_count d ∧
                   ∃ x, draft_cells d1 !! col = Some (Num x)) df df1.
Proof.
  intros H%mapM_Ok. eapply Forall2_impl; [exact H|]. intros d d1 Hd.
  unfold coerce_row in Hd. destruct (draft_cells d !! col); [|done].
  injection Hd as <-. split; [done|]. eexists. apply lookup_insert_eq.
Qed.

Lemma absolute_rows col abs_col df1 df' :
  mapM (absolute_row col abs_col) df1 = Ok df' →
  Forall2 (λ d1 d', draft_count d' = draft_count d1) df1 df'.
Proof.
  intros H%mapM_Ok. eapply Forall2_impl; [exact H|]. intros d1 d' Hd.
  unfold absolute_row in Hd.
  apply bind_Ok in Hd as (x & _ & Hd). apply bind_Ok in Hd as (n & _ & [= <-]). done.
Qed.

Lemma Forall2_counts (P : count → Prop) (R : Draft → Draft → Prop) df df' :
  (∀ d d', R d d' → draft_count d' = draft_count d) →
  Forall2 R df df' → Forall (λ d, P (draft_count d)) df → Forall (λ d, P (draft_count d)) df'.
Proof.
  intros HR H. induction H as [|d d' df df' Hd _ IH]; [done|].
  intros [Hp Hall]%Forall_cons. constructor; [|by apply IH].
  by rewrite (HR _ _ Hd).
Qed.

(** A turn of the loop on rows whose entry counts are integers fails only
    for want of the column, and leaves the entry counts as they are. *)
Lemma derive_column_counts col df :
  is_Some (Str.split "_" col !! 2%nat) →
  Forall (λ d, ∃ n, draft_count d = CInt n) df →
  match derive_column lib col df with
  | Ok df' => Forall (λ d, ∃ n, draft_count d = CInt n) df'
  | Err e => e = KeyError
  end.
Proof.
  intros [b Hb] Hcounts. unfold derive_column.
  destruct (mapM (coerce_row lib col) df) as [df1|e1] eqn:H1; simpl.
  2:{ apply mapM_Err_inv in H1 as (d & _ & Hd). by eapply coerce_row_error. }
  assert (∃ a, abs_col_name col = Ok a) as [a ->].
  { unfold abs_col_name, Str.item. rewrite Hb.
    destruct (lookup_lt_is_Some_2 (Str.split "_" col) 1%nat) as [a' ->]; [|by eexists].
    apply lookup_lt_Some in Hb. lia. }
  simpl. apply coerce_rows in H1.
  assert (Forall (λ d, ∃ n, draft_count d = CInt n) df1) as Hcounts1.
  { eapply (Forall2_counts (λ c, ∃ n, c = CInt n)); [|exact H1|exact Hcounts].
    by intros d d1 [-> _]. }
  destruct (mapM (absolute_row col a) df1) as [df'|e'] eqn:H2.
  - apply absolute_rows in H2.
    by eapply (Forall2_counts (λ c, ∃ n, c = CInt n)); [|exact H2|exact Hcounts1].
  - exfalso. apply mapM_Err_inv in H2 as (d1 & Hd1 & Herr).
    apply list_elem_of_lookup in Hd1 as [i Hi].
    destruct (Forall2_lookup_r _ _ _ _ _ H1 Hi) as (d & _ & _ & x & Hx).
    eapply Forall_lookup in Hcounts1 as [n Hn]; [|exact Hi].
    unfold absolute_row, float_cell in Herr. by rewrite Hx, Hn in Herr.
Qed.

Lemma for_each_derive_column_counts cols df :
  Forall (λ col, is_Some (Str.split "_" col !! 2%nat)) cols →
  Forall (λ d, ∃ n, draft_count d = CInt n) df →
  match for_each (derive_column lib) cols df with
  | Ok df' => Forall (λ d, ∃ n, draft_count d = CInt n) df'
  | Err e => e = KeyError
  end.
Proof.
  intros Hcols. revert df. induction Hcols as [|col cols Hcol _ IH]; intros df Hdf; [done|].
  simpl. pose proof (derive_column_counts col df Hcol Hdf) as H.
  destruct (derive_column lib col df) as [df'|e'] eqn:Hd; simpl; [by apply IH|done].
Qed.

Lemma finish_counts df :
  Forall (λ d, ∃ n, draft_count d = CInt n) df → ∃ rows, mapM finish df = Ok rows.
Proof.
  intros H.
  destruct (Forall_exists_Forall2 (λ d r, finish d = Ok r) df) as [rows Hrows].
  { eapply Forall_impl; [exact H|]. intros d [n Hn]. unfold finish. rewrite Hn. by eexists. }
  exists rows. by apply mapM_Ok.
Qed.

End PreparerErrors.

Lemma percentage_headers_split :
  Forall (λ col, is_Some (Str.split "_" col !! 2%nat)) percentage_columns.
Proof. repeat constructor; vm_compute; eauto. Qed.

(** X1.  The preparer returns a table exactly when every raw row has a
    period that is there and starts with an integer, an entry count that is
    an integer, and the six percentage columns. *)
Theorem prepare_accepts (lib : Library) (raw : list RawRow) :
  (∃ df, prepare lib raw = Ok df) ↔
  Forall (λ rr,
     (∃ x y, period_text (raw_time_period rr) x ∧
             Str.int (unicode lib) (Str.slice_to 4 x) = Ok y) ∧
     (∃ n, raw_entry_count rr = CInt n) ∧
     ∀ col, col ∈ percentage_columns → is_Some (raw_cells rr !! col)) raw.
Proof.
  assert (∀ rr x, period_text (raw_time_period rr) x ↔
                  astype_str (raw_time_period rr) = Some x) as Htext.
  { intros rr x. destruct (raw_time_period rr); simpl; [| |done]; split; congruence. }
  split.
  - intros [df H]. eapply Forall_impl; [by eapply prepare_readable|].
    intros rr ((x & y & Hx & Hy) & Hn & Hcols). split; [|done].
    exists x, y. by rewrite Htext.
  - intros H. apply prepare_total. eapply Forall_impl; [exact H|].
    intros rr ((x & y & Hx & Hy) & Hn & Hcols). split; [|done].
    exists x, y. by rewrite <-Htext.
Qed.

(** X2.  The exception the preparer raises, statement by statement: a
    missing period raises [TypeError] (line 11) whatever else is wrong with
    the table; when all periods are there, one that does not start with an
    integer raises [ValueError] (line 12); when all periods are fine, a row
    without the first percentage column raises [KeyError] (line 24), an entry
    count that is text raises [TypeError] when the first percentage column is
    there (line 26), and a row that lacks a percentage column raises
    [KeyError] when no entry count is text. *)
Theorem prepare_errors (lib : Library) (raw : list RawRow) :
  (Exists (λ rr, ¬ period_present rr) raw → prepare lib raw = Err TypeError) ∧
  (Forall period_present raw → Exists (λ rr, ¬ period_readable lib rr) raw →
   prepare lib raw = Err ValueError) ∧
  (Forall (period_readable lib) raw →
   Exists (λ rr, raw_cells rr !! "perc_astar_grade_achieved" = None) raw →
   prepare lib raw = Err KeyError) ∧
  (Forall (period_readable lib) raw →
   Forall (λ rr, is_Some (raw_cells rr !! "perc_astar_grade_achieved")) raw →
   Exists count_is_text raw →
   prepare lib raw = Err TypeError) ∧
  (Forall (period_readable lib) raw →
   Forall (λ rr, ¬ count_is_text rr) raw → Exists lacks_percentage raw →
   prepare lib raw = Err KeyError).
Proof.
  split; [|split; [|split; [|split]]].
  - intros Hbad. unfold prepare.
    rewrite (mapM_Err format_row raw TypeError); [done| |].
    + intros rr e _. apply format_row_error.
    + eapply Exists_impl; [exact Hbad|]. intros rr Hrr.
      unfold format_row, period_present in *.
      destruct (raw_time_period rr); simpl; [by destruct Hrr|by destruct Hrr|by eexists].
  - intros Hpresent Hbad. unfold prepare.
    destruct (mapM format_row raw) as [formatted|e] eqn:Hf.
    2:{ exfalso. apply mapM_Err_inv in Hf as (rr & Hrr & Herr).
        eapply Forall_forall in Hpresent; [|exact Hrr].
        unfold format_row, period_present in *.
        by destruct (raw_time_period rr). }
    cbn [mbind result_bind].
    rewrite (mapM_Err (year_row lib) formatted ValueError); [done| |].
    + intros f e _. apply year_row_error.
    + apply mapM_Ok in Hf. clear Hpresent.
      induction Hf as [|rr f raw formatted Hrr _ IH]; [by apply Exists_nil in Hbad|].
      apply Exists_cons in Hbad as [Hbad|Hbad]; [|by right; apply IH].
      left. unfold format_row in Hrr.
      destruct (astype_str (raw_time_period rr)) as [x|] eqn:Hx; [|done].
      injection Hrr as <-. unfold year_row.
      destruct (Str.int _ _) as [y|e] eqn:Hy; [|by eexists].
      destruct Hbad. by exists x, y.
  - intros Hgood Hlacks.
    destruct (period_passes lib raw Hgood) as (formatted & years & Hf & Hy & Hrel).
    unfold prepare. rewrite Hf. cbn [mbind result_bind]. rewrite Hy.
    cbn [mbind result_bind percentage_columns for_each].
    assert (derive_column lib "perc_astar_grade_achieved" years = Err KeyError) as ->;
      [|done].
    unfold derive_column. rewrite (mapM_Err _ years KeyError); [done| |].
    + intros d e _. apply coerce_row_error.
    + clear Hf Hy Hgood. induction Hrel as [|rr d raw years [_ Hd] _ IH];
        [by apply Exists_nil in Hlacks|].
      apply Exists_cons in Hlacks as [Hnone|Hlacks]; [|by right; apply IH].
      left. unfold coerce_row. rewrite Hd. cbn [foldr assigned_columns].
      rewrite !lookup_delete_ne, Hnone by done. by eexists.
  - intros Hgood Hfirst Htext.
    destruct (period_passes lib raw Hgood) as (formatted & years & Hf & Hy & Hrel).
    unfold prepare. rewrite Hf. cbn [mbind result_bind]. rewrite Hy.
    cbn [mbind result_bind percentage_columns for_each].
    assert (derive_column lib "perc_astar_grade_achieved" years = Err TypeError) as ->;
      [|done].
    unfold derive_column.
    destruct (mapM _ years) as [df1|e] eqn:H1.
    2:{ exfalso. apply mapM_Err_inv in H1 as (d & Hd & Herr).
        apply list_elem_of_lookup in Hd as [i Hi].
        destruct (Forall2_lookup_r _ _ _ _ _ Hrel Hi) as (rr & Hrr & _ & Hcells).
        eapply Forall_lookup in Hfirst as [c Hc]; [|exact Hrr].
        unfold coerce_row in Herr. rewrite Hcells in Herr.
        cbn [foldr assigned_columns] in Herr.
        by rewrite !lookup_delete_ne, Hc in Herr by done. }
    cbn [mbind result_bind]. change (abs_col_name "perc_astar_grade_achieved")
      with (Ok "abs_astar_grade_grade_achieved").
    cbn [mbind result_bind]. apply coerce_rows in H1.
    rewrite (mapM_Err _ df1 TypeError); [done| |].
    + intros d1 e Hd1 Herr.
      apply list_elem_of_lookup in Hd1 as [i Hi].
      destruct (Forall2_lookup_r _ _ _ _ _ H1 Hi) as (d & _ & _ & x & Hx).
      unfold absolute_row, float_cell in Herr. rewrite Hx in Herr.
      cbn [mbind result_bind] in Herr.
      destruct (draft_count d1); cbn in Herr; by inversion Herr.
    + clear Hf Hy Hgood Hfirst. revert df1 H1.
      induction Hrel as [|rr d raw years [Hd _] _ IH]; intros df1 H1;
        [by apply Exists_nil in Htext|].
      apply Forall2_cons_inv_l in H1 as (d1 & df1' & [Hd1 [x Hx]] & H1 & ->).
      apply Exists_cons in Htext as [[s Hs]|Htext]; [|by right; eapply IH].
      left. unfold absolute_row, float_cell. rewrite Hx, Hd1, Hd, Hs. by eexists.
  - intros Hgood Hints Hlacks.
    destruct (prepare lib raw) as [df|e] eqn:Hprep.
    { apply prepare_readable in Hprep. exfalso.
      apply Exists_exists in Hlacks as (rr & Hrr & col & Hcol & Hnone).
      eapply Forall_forall in Hprep; [|exact Hrr].
      destruct Hprep as (_ & _ & Hsome). apply Hsome in Hcol as [c Hc]. congruence. }
    f_equal.
    destruct (period_passes lib raw Hgood) as (formatted & years & Hf & Hy & Hrel).
    unfold prepare in Hprep. rewrite Hf in Hprep. cbn [mbind result_bind] in Hprep.
    rewrite Hy in Hprep. cbn [mbind result_bind] in Hprep.
    assert (Forall (λ d, ∃ n, draft_count d = CInt n) years) as Hcounts.
    { clear Hf Hy Hgood Hlacks Hprep.
      induction Hrel as [|rr d raw years [Hd _] _ IH]; [done|].
      apply Forall_cons in Hints as [Hint Hints]. constructor; [|by apply IH].
      rewrite Hd. destruct (raw_entry_count rr) as [n|s] eqn:Hc; [by eexists|].
      destruct Hint. by exists s. }
    pose proof (for_each_derive_column_counts lib percentage_columns years
                  percentage_headers_split Hcounts) as Hloop.
    destruct (for_each _ _ years) as [df1|e1]; cbn [mbind result_bind] in Hprep.
    + destruct (finish_counts df1 Hloop) as [rows Hrows]. congruence.
    + congruence.
Qed.

Lemma missing_period_raw_missing : Exists (λ rr, ¬ period_present rr) missing_period_raw.
Proof. apply Exists_cons_tl, Exists_cons_hd. by intros []. Qed.

Lemma bad_period_raw_present : Forall period_present bad_period_raw.
Proof. by repeat constructor. Qed.

Lemma bad_period_raw_bad :
  Exists (λ rr, ¬ period_readable example_lib rr) bad_period_raw.
Proof.
  apply Exists_cons_tl, Exists_cons_hd. intros (x & y & [= <-] & Hy).
  vm_compute in Hy. discriminate.
Qed.

Lemma missing_column_raw_periods : Forall (period_readable example_lib) missing_column_raw.
Proof. repeat constructor. eexists _, _. split; [reflexivity|]. vm_compute. reflexivity. Qed.

Lemma missing_column_raw_counts : Forall (λ rr, ¬ count_is_text rr) missing_column_raw.
Proof. repeat constructor. by intros [s Hs]. Qed.

Lemma missing_column_raw_lacks : Exists lacks_percentage missing_column_raw.
Proof.
  apply Exists_cons_hd. exists "perc_astar_c_grade_achieved". split; [in_list|].
  vm_compute. reflexivity.
Qed.

Lemma text_count_raw_periods : Forall (period_readable example_lib) text_count_raw.
Proof.
  repeat constructor; (eexists _, _; split; [reflexivity|]; vm_compute; reflexivity).
Qed.

Lemma text_count_raw_first :
  Forall (λ rr, is_Some (raw_cells rr !! "perc_astar_grade_achieved")) text_count_raw.
Proof. repeat constructor; vm_compute; eauto. Qed.

Lemma text_count_raw_text : Exists count_is_text text_count_raw.
Proof. apply Exists_cons_tl, Exists_cons_hd. by exists "c". Qed.

Lemma prepare_errors_sample :
  prepare example_lib missing_period_raw = Err TypeError ∧
  prepare example_lib bad_period_raw = Err ValueError ∧
  prepare example_lib text_count_raw = Err TypeError ∧
  prepare example_lib missing_column_raw = Err KeyError.
Proof.
  split; [|split; [|split]].
  - exact (proj1 (prepare_errors example_lib missing_period_raw)
             missing_period_raw_missing).
  - exact (proj1 (proj2 (prepare_errors example_lib bad_period_raw))
             bad_period_raw_present bad_period_raw_bad).
  - exact (proj1 (proj2 (proj2 (proj2 (prepare_errors example_lib text_count_raw))))
             text_count_raw_periods text_count_raw_first text_count_raw_text).
  - exact (proj2 (proj2 (proj2 (proj2 (prepare_errors example_lib missing_column_raw))))
             missing_column_raw_periods missing_column_raw_counts
             missing_column_raw_lacks).
Defined.

Lemma derive_row_other lib col d d' k :
  derive_row lib col d = Ok d' → k ≠ col → abs_col_name col ≠ Ok k →
  draft_cells d' !! k = draft_cells d !! k.
Proof.
  intros (c & a & n & _ & Ha & _ & ->)%derive_row_Ok Hk Hka. unfold set_cell.
  cbn [draft_cells].
  rewrite !lookup_insert_ne; [done|done|]. intros ->. congruence.
Qed.

Lemma for_each_derive_row_other lib cols d d' k :
  for_each (derive_row lib) cols d = Ok d' →
  Forall (λ col, k ≠ col ∧ abs_col_name col ≠ Ok k) cols →
  draft_cells d' !! k = draft_cells d !! k.
Proof.
  intros H Hcols. revert d H. induction Hcols as [|col cols [Hk Hka] _ IH]; intros d H.
  - by injection H as <-.
  - cbn [for_each] in H. apply bind_Ok in H as (d1 & Hd1 & H).
    rewrite (IH _ H). by eapply derive_row_other.
Qed.

Lemma other_header k :
  k ∉ percentage_columns → k ∉ absolute_columns →
  Forall (λ col, k ≠ col ∧ abs_col_name col ≠ Ok k) percentage_columns.
Proof.
  intros Hp Ha. repeat constructor.
  all: try (intros ->; apply Hp; in_list).
  all: vm_compute; intros [= <-]; apply Ha; in_list.
Qed.

(** X3.  The preparer keeps the rows, their order, and in every row the
    subject, the characteristic, the entry count and every cell under a
    header other than the six percentage headers, the six absolute headers
    and the three headers of the period columns that lines 10 to 12
    assign. *)
Theorem prepare_keeps_rows (lib : Library) (raw : list RawRow) (df : list Row) :
  prepare lib raw = Ok df →
  Forall2 (λ rr r,
     subject_name r = raw_subject_name rr ∧
     characteristic_value r = raw_characteristic_value rr ∧
     raw_entry_count rr = CInt (entry_count r) ∧
     ∀ k, k ∉ percentage_columns → k ∉ absolute_columns →
          k ∉ ["time_period"; "formatted_time_period"; "start_year"] →
          cells r !! k = raw_cells rr !! k) raw df.
Proof.
  intros H. apply prepare_rows in H. eapply Forall2_impl; [exact H|].
  intros rr r Hr. destruct (prepare_row_fields _ _ _ Hr) as [(? & ? & _ & _ & _ & ?) _].
  repeat split; try done. intros k Hp Ha Hk.
  unfold prepare_row in Hr. apply bind_Ok in Hr as (f & Hf & Hr).
  apply bind_Ok in Hr as (d & Hd & Hr). apply bind_Ok in Hr as (d' & Hd' & Hr).
  unfold finish in Hr. destruct (draft_count d'); [|done]. injection Hr as <-.
  cbn [cells].
  rewrite (for_each_derive_row_other _ _ _ _ k Hd' (other_header k Hp Ha)).
  unfold format_row in Hf. destruct (astype_str _) as [x|]; [|done]. injection Hf as <-.
  unfold year_row in Hd. apply bind_Ok in Hd as (y & _ & [= <-]).
  cbn [draft_cells assigned_columns foldr].
  rewrite !lookup_delete_ne; [done|..]; intros <-; apply Hk; in_list.
Qed.

Lemma prepare_keeps_rows_sample :
  Forall2 (λ rr r,
     subject_name r = raw_subject_name rr ∧
     characteristic_value r = raw_characteristic_value rr ∧
     raw_entry_count rr = CInt (entry_count r) ∧
     ∀ k, k ∉ percentage_columns → k ∉ absolute_columns →
          k ∉ ["time_period"; "formatted_time_period"; "start_year"] →
          cells r !! k = raw_cells rr !! k) sample_raw sample_df.
Proof.
  exact (prepare_keeps_rows example_lib sample_raw sample_df sample_df_prepared).
Defined.

(** * Further properties of the queries *)

(** X8.  The summary table depends on the subject list only through its
    elements: lists with the same elements, in any order and with any
    repetition, give the same table. *)
Theorem update_table_subject_set (df : list Row) (start_date end_date : Z)
    (indicator_type characteristic : string) (subjects1 subjects2 : list string) :
  (∀ subject, subject ∈ subjects1 ↔ subject ∈ subjects2) →
  update_table df start_date end_date indicator_type characteristic (Several subjects1)
  = update_table df start_date end_date indicator_type characteristic (Several subjects2).
Proof.
  intros Hsame. unfold update_table. cbn [isin mbind result_bind].
  rewrite (list_filter_iff (mask start_date end_date characteristic subjects1)
             (mask start_date end_date characteristic subjects2)); [done|].
  intros r. unfold mask. by rewrite Hsame.
Qed.

Lemma update_table_subject_set_sample :
  update_table sample_df 2019 2020 "percentage" "All Students"
               (Several ["Mathematics"; "Physics"])
  = update_table sample_df 2019 2020 "percentage" "All Students"
                 (Several ["Physics"; "Mathematics"; "Physics"]).
Proof.
  apply (update_table_subject_set sample_df 2019 2020 "percentage" "All Students"
           ["Mathematics"; "Physics"] ["Physics"; "Mathematics"; "Physics"]).
  intros subject. rewrite !elem_of_cons, !elem_of_nil. tauto.
Defined.

Lemma filter_app_none {A} (P : A → Prop) `{!∀ x, Decision (P x)} (l extra : list A) :
  Forall (λ x, ¬ P x) extra → filter P (l ++ extra)%list = filter P l.
Proof.
  intros Hextra. rewrite filter_app.
  assert (filter P extra = []) as ->; [|by rewrite app_nil_r].
  induction Hextra as [|x extra Hx _ IH]; [done|]. by rewrite filter_cons_False.
Qed.

(** X9.  Rows that do not pass the filter have no influence: adding such
    rows to the table changes neither the summary table nor the chart. *)
Theorem queries_ignore_other_rows (df extra : list Row) (start_date end_date : Z)
    (indicator_type characteristic : string) (subjects : subjects_arg) :
  Forall (λ r, ¬ mask start_date end_date characteristic (subject_list subjects) r) extra →
  update_table (df ++ extra)%list start_date end_date indicator_type characteristic subjects
  = update_table df start_date end_date indicator_type characteristic subjects ∧
  update_line_chart (df ++ extra)%list start_date end_date subjects characteristic
  = update_line_chart df start_date end_date subjects characteristic.
Proof.
  intros Hextra. split.
  - unfold update_table. destruct subjects as [subject|subjects]; [done|].
    cbn [isin mbind result_bind]. by rewrite filter_app_none.
  - unfold update_line_chart. fold (subject_list subjects). by rewrite filter_app_none.
Qed.

Lemma sample_df_not_female :
  Forall (λ r, ¬ mask 2019 2020 "Female" (subject_list (Several ["Physics"])) r) sample_df.
Proof. apply (bool_decide_unpack _). vm_compute. exact I. Qed.

Lemma queries_ignore_other_rows_sample :
  update_table (example_df ++ sample_df)%list 2019 2020 "percentage" "Female"
               (Several ["Physics"])
  = update_table example_df 2019 2020 "percentage" "Female" (Several ["Physics"]) ∧
  update_line_chart (example_df ++ sample_df)%list 2019 2020 (Several ["Physics"]) "Female"
  = update_line_chart example_df 2019 2020 (Several ["Physics"]) "Female".
Proof.
  exact (queries_ignore_other_rows example_df sample_df 2019 2020 "percentage" "Female"
           (Several ["Physics"]) sample_df_not_female).
Defined.

(** X10.  On a prepared table the headers of the summary table are the
    indicator header followed by the start years of the rows that pass the
    filter, each year once and in ascending order; the identifier of every
    column is its name. *)
Theorem update_table_headers (lib : Library)
    (raw : list RawRow) (df : list Row) (start_date end_date : Z)
    (indicator_type characteristic : string) (subjects : list string) :
  prepare lib raw = Ok df →
  ∃ records table_columns years,
    update_table df start_date end_date indicator_type characteristic
                 (Several subjects) = Ok (records, table_columns) ∧
    name <$> table_columns = "Indicator" :: (Str.str <$> years) ∧
    id <$> table_columns = name <$> table_columns ∧
    StronglySorted Z.lt years ∧
    ∀ y, y ∈ years ↔
         ∃ r, r ∈ df ∧ mask start_date end_date characteristic subjects r ∧
              start_year r = y.
Proof.
  intros Hdf%prepared_numeric.
  set (filtered := filter (mask start_date end_date characteristic subjects) df).
  eexists _, _, (year_columns filtered). split; [by apply update_table_closed|].
  fold filtered. rewrite <-!list_fmap_compose.
  split; [by rewrite list_fmap_id|]. split; [done|].
  split; [apply group_keys_sorted|].
  intros y. rewrite elem_of_year_columns. unfold filtered.
  split.
  - intros (r & [Hm Hr]%list_elem_of_filter & Hy). eauto.
  - intros (r & Hr & Hm & Hy). exists r. split; [|done]. by apply list_elem_of_filter.
Qed.

Lemma update_table_headers_sample :
  ∃ records table_columns years,
    update_table sample_df 2019 2020 "percentage" "All Students"
                 (Several ["Physics"]) = Ok (records, table_columns) ∧
    name <$> table_columns = "Indicator" :: (Str.str <$> years) ∧
    id <$> table_columns = name <$> table_columns ∧
    StronglySorted Z.lt years ∧
    ∀ y, y ∈ years ↔
         ∃ r, r ∈ sample_df ∧ mask 2019 2020 "All Students" ["Physics"] r ∧
              start_year r = y.
Proof.
  exact (update_table_headers example_lib sample_raw sample_df 2019 2020
           "percentage" "All Students" ["Physics"] sample_df_prepared).
Defined.

Theorem queries_without_match (lib : Library)
    (raw : list RawRow) (df : list Row) (start_date end_date : Z)
    (indicator_type characteristic : string) (subjects : list string) :
  prepare lib raw = Ok df →
  Forall (λ r, ¬ mask start_date end_date characteristic subjects r) df →
  update_table df start_date end_date indicator_type characteristic (Several subjects)
  = Ok ((λ col, {[ "Indicator" := VStr col ]}) <$> indicator_columns indicator_type,
        [mkColumnSpec "Indicator" "Indicator"]) ∧
  ∃ figure,
    update_line_chart df start_date end_date (Several subjects) characteristic = Ok figure ∧
    Forall (λ trace, trace_x trace = [] ∧ trace_y trace = []) (figure_data figure).
Proof.
  intros Hdf%prepared_numeric Hnone.
  pose proof (filter_app_none (mask start_date end_date characteristic subjects)
                [] df Hnone) as Hempty.
  rewrite app_nil_l in Hempty. split; [by apply update_table_no_rows|].
  eexists. split; [reflexivity|]. cbn [figure_data]. rewrite Hempty.
  apply Forall_fmap, Forall_forall. by intros subject _.
Qed.

Lemma queries_without_match_sample :
  update_table sample_df 2019 2020 "absolute" "Female" (Several ["Physics"])
  = Ok ((λ col, {[ "Indicator" := VStr col ]}) <$> indicator_columns "absolute",
        [mkColumnSpec "Indicator" "Indicator"]) ∧
  ∃ figure,
    update_line_chart sample_df 2019 2020 (Several ["Physics"]) "Female" = Ok figure ∧
    Forall (λ trace, trace_x trace = [] ∧ trace_y trace = []) (figure_data figure).
Proof.
  exact (queries_without_match example_lib sample_raw sample_df 2019 2020
           "absolute" "Female" ["Physics"] sample_df_prepared sample_df_not_female).
Defined.

(** *** Groups partition the rows *)

Lemma exact_sum_fmap_add {A} (f g : A → Z) (l : list A) :
  exact_sum ((λ a, f a + g a) <$> l) = exact_sum (f <$> l) + exact_sum (g <$> l).
Proof. unfold exact_sum. induction l as [|a l IH]; [done|]. csimpl. lia. Qed.

Lemma exact_sum_cons (x : Z) (xs : list Z) : exact_sum (x :: xs) = x + exact_sum xs.
Proof. reflexivity. Qed.

Lemma exact_sum_indicator_absent (k v : Z) (ks : list Z) :
  k ∉ ks → exact_sum ((λ y, if decide (k = y) then v else 0) <$> ks) = 0.
Proof.
  induction ks as [|y ks IH]; [done|]. intros [Hne Hk]%not_elem_of_cons.
  rewrite fmap_cons, exact_sum_cons, decide_False, IH by done. lia.
Qed.

Lemma exact_sum_indicator (k v : Z) (ks : list Z) :
  NoDup ks → k ∈ ks → exact_sum ((λ y, if decide (k = y) then v else 0) <$> ks) = v.
Proof.
  induction 1 as [|y ks Hy Hnd IH]; [by intros ?%elem_of_nil|].
  intros Hk. rewrite fmap_cons, exact_sum_cons. destruct (decide (k = y)) as [->|Hne].
  - rewrite exact_sum_indicator_absent by done. lia.
  - apply elem_of_cons in Hk as [?|Hk]; [done|]. rewrite IH by done. lia.
Qed.

Lemma exact_sum_zero {A} (l : list A) : exact_sum ((λ _, 0) <$> l) = 0.
Proof. unfold exact_sum. induction l as [|a l IH]; [done|]. csimpl. lia. Qed.

Lemma exact_sum_by_key (f : Row → Z) (rows : list Row) (ks : list Z) :
  NoDup ks → (∀ r, r ∈ rows → start_year r ∈ ks) →
  exact_sum ((λ y, exact_sum (f <$> rows_of_year y rows)) <$> ks) = exact_sum (f <$> rows).
Proof.
  intros Hnd. unfold rows_of_year. induction rows as [|r rows IH]; intros Hks.
  - apply exact_sum_zero.
  - rewrite (list_fmap_ext _
      (λ y, (if decide (start_year r = y) then f r else 0)
            + exact_sum (f <$> filter (λ r', start_year r' = y) rows)) ks).
    2:{ intros _ y _. simpl. rewrite filter_cons. by destruct (decide (start_year r = y)). }
    rewrite exact_sum_fmap_add, exact_sum_indicator, IH; [done| |done|].
    + intros r' Hr'. apply Hks. by right.
    + apply Hks. left.
Qed.

Lemma exact_sum_wrapped (g : Z → Z) (ks : list Z) :
  (exact_sum ((λ y, wrap64 (g y)) <$> ks) - exact_sum (g <$> ks)) `mod` 2 ^ 64 = 0.
Proof.
  induction ks as [|k ks IH]; [done|]. rewrite !fmap_cons, !exact_sum_cons.
  replace (wrap64 (g k) + exact_sum ((λ y, wrap64 (g y)) <$> ks)
           - (g k + exact_sum (g <$> ks)))
    with ((wrap64 (g k) - g k)
          + (exact_sum ((λ y, wrap64 (g y)) <$> ks) - exact_sum (g <$> ks))) by lia.
  by rewrite Z.add_mod, wrap64_congruent, IH by lia.
Qed.

Lemma exact_sum_filter_le {A} (f : A → Z) (P : A → Prop) `{!∀ a, Decision (P a)}
    (l : list A) :
  Forall (λ n, 0 ≤ n) (f <$> l) →
  0 ≤ exact_sum (f <$> filter P l) ≤ exact_sum (f <$> l).
Proof.
  induction l as [|a l IH]; [done|]. rewrite fmap_cons, exact_sum_cons.
  intros [Ha Hl]%Forall_cons. specialize (IH Hl).
  rewrite filter_cons. destruct (decide (P a)); [|lia].
  rewrite fmap_cons, exact_sum_cons. lia.
Qed.

(** X11.  The values of a subject's line add up, but for a multiple of
    2^64, to the sum of the entry counts of the subject's filtered rows, and
    to that sum itself when no entry count is negative and the sum is below
    2^63: grouping by year drops no row and counts none twice. *)
Theorem update_line_chart_total (df : list Row) (start_date end_date : Z)
    (selected_subjects : subjects_arg) (characteristic : string) :
  ∃ figure,
    update_line_chart df start_date end_date selected_subjects characteristic = Ok figure ∧
    Forall2 (λ subject trace,
       let entries :=
         entry_count <$>
           filter (λ r, start_date ≤ start_year r ∧ start_year r ≤ end_date ∧
                        characteristic_value r = characteristic ∧
                        subject_name r ∈ subject_list selected_subjects ∧
                        subject_name r = subject) df in
       (exact_sum (trace_y trace) - exact_sum entries) `mod` 2 ^ 64 = 0 ∧
       (Forall (λ n, 0 ≤ n) entries → exact_sum entries < 2 ^ 63 →
        exact_sum (trace_y trace) = exact_sum entries))
      (subject_list selected_subjects) (figure_data figure).
Proof.
  eexists. split; [reflexivity|]. cbn [figure_data].
  fold (subject_list selected_subjects).
  apply Forall2_fmap_r, Forall_Forall2_diag, Forall_forall. intros subject _.
  unfold compose. cbn [trace_y].
  fold (subject_rows df start_date end_date characteristic
          (subject_list selected_subjects) subject).
  set (rows := subject_rows _ _ _ _ _ _).
  assert (filter (λ r, start_date ≤ start_year r ∧ start_year r ≤ end_date ∧
                       characteristic_value r = characteristic ∧
                       subject_name r ∈ subject_list selected_subjects ∧
                       subject_name r = subject) df = rows) as ->.
  { unfold rows, subject_rows. rewrite list_filter_filter. apply list_filter_iff.
    intros r. unfold mask. tauto. }
  assert (exact_sum ((λ y, exact_sum (entry_count <$> rows_of_year y rows))
                       <$> year_columns rows)
          = exact_sum (entry_count <$> rows)) as Hkeys.
  { apply exact_sum_by_key; [apply group_keys_NoDup|].
    intros r Hr. apply elem_of_year_columns. by exists r. }
  rewrite groupby_sum_totals.
  rewrite (list_fmap_ext _ (λ y, wrap64 (exact_sum (entry_count <$> rows_of_year y rows)))
             (year_columns rows)) by (intros; apply isum_wrap).
  split.
  - rewrite <-Hkeys.
    apply (exact_sum_wrapped (λ y, exact_sum (entry_count <$> rows_of_year y rows))).
  - intros Hpos Hlt. rewrite <-Hkeys. f_equal. apply list_fmap_ext. intros _ y _.
    apply wrap64_id. unfold int64, rows_of_year.
    pose proof (exact_sum_filter_le entry_count (λ r, start_year r = y) rows Hpos). lia.
Qed.

Lemma update_line_chart_total_sample :
  ∃ figure,
    update_line_chart sample_df 2019 2020 (Several ["Mathematics"; "Physics"])
                      "All Students" = Ok figure ∧
    Forall2 (λ subject trace,
       let entries :=
         entry_count <$>
           filter (λ r, 2019 ≤ start_year r ∧ start_year r ≤ 2020 ∧
                        characteristic_value r = "All Students" ∧
                        subject_name r ∈ subject_list (Several ["Mathematics"; "Physics"]) ∧
                        subject_name r = subject) sample_df in
       (exact_sum (trace_y trace) - exact_sum entries) `mod` 2 ^ 64 = 0 ∧
       (Forall (λ n, 0 ≤ n) entries → exact_sum entries < 2 ^ 63 →
        exact_sum (trace_y trace) = exact_sum entries))
      (subject_list (Several ["Mathematics"; "Physics"])) (figure_data figure).
Proof.
  exact (update_line_chart_total sample_df 2019 2020
           (Several ["Mathematics"; "Physics"]) "All Students").
Defined.

(** *** The table and the chart of one subject *)

Lemma filter_single_subject start_date end_date characteristic subject (df : list Row) :
  filter (λ r, subject_name r = subject)
         (filter (mask start_date end_date characteristic [subject]) df)
  = filter (mask start_date end_date characteristic [subject]) df.
Proof.
  induction df as [|r df IH]; [done|]. rewrite filter_cons.
  destruct (decide (mask start_date end_date characteristic [subject] r))
    as [(_ & _ & _ & Hs)|]; [|done].
  apply list_elem_of_singleton in Hs. rewrite filter_cons, decide_True by done.
  by rewrite IH.
Qed.

(** X14.  For a single subject the two callbacks agree: the chart's years
    are the table's year columns, and in every year the table's entry-count
    cell and the chart's point come from the same entry counts, those of the
    subject's filtered rows of that year: the cell is their float64 mean,
    the point their sum as a 64-bit integer. *)
Theorem table_chart_agree (lib : Library)
    (raw : list RawRow) (df : list Row) (start_date end_date : Z)
    (indicator_type characteristic subject : string) :
  prepare lib raw = Ok df →
  ∃ records table_columns record figure trace,
    update_table df start_date end_date indicator_type characteristic
                 (Several [subject]) = Ok (records, table_columns) ∧
    update_line_chart df start_date end_date (Several [subject]) characteristic
    = Ok figure ∧
    records !! 0%nat = Some record ∧ figure_data figure = [trace] ∧
    record !! "Indicator" = Some (VStr "entry_count") ∧
    name <$> table_columns = "Indicator" :: (Str.str <$> trace_x trace) ∧
    Forall2 (λ y total,
       let entries :=
         entry_count <$>
           filter (λ r, start_date ≤ start_year r ∧ start_year r ≤ end_date ∧
                        characteristic_value r = characteristic ∧
                        subject_name r = subject ∧ start_year r = y) df in
       record !! Str.str y = Some (VFloat (mean (of_int <$> entries))) ∧
       int64 total ∧ (total - exact_sum entries) `mod` 2 ^ 64 = 0)
      (trace_x trace) (trace_y trace).
Proof.
  intros Hdf%prepared_numeric.
  set (filtered := filter (mask start_date end_date characteristic [subject]) df).
  eexists _, _, (table_record filtered "entry_count"), _, _.
  split; [by apply update_table_closed|]. split; [reflexivity|].
  fold filtered. split; [done|]. split; [reflexivity|].
  split; [apply table_record_indicator|].
  cbn [trace_x trace_y]. unfold filtered. rewrite filter_single_subject.
  fold filtered. rewrite groupby_sum_years, groupby_sum_totals.
  split.
  { rewrite <-list_fmap_compose. by rewrite list_fmap_id. }
  apply Forall2_fmap_r, Forall_Forall2_diag, Forall_forall. intros y Hy.
  unfold compose. cbv beta zeta.
  assert (filter (λ r, start_date ≤ start_year r ∧ start_year r ≤ end_date ∧
                       characteristic_value r = characteristic ∧
                       subject_name r = subject ∧ start_year r = y) df
          = rows_of_year y filtered) as ->.
  { unfold rows_of_year, filtered. rewrite list_filter_filter. apply list_filter_iff.
    intros r. unfold mask. rewrite list_elem_of_singleton. tauto. }
  rewrite table_record_year, isum_wrap by done.
  split; [|split; [apply wrap64_int64|apply wrap64_congruent]].
  do 3 f_equal. rewrite <-list_fmap_compose. by apply list_fmap_ext.
Qed.

Lemma table_chart_agree_sample :
  ∃ records table_columns record figure trace,
    update_table sample_df 2019 2020 "percentage" "All Students"
                 (Several ["Physics"]) = Ok (records, table_columns) ∧
    update_line_chart sample_df 2019 2020 (Several ["Physics"]) "All Students"
    = Ok figure ∧
    records !! 0%nat = Some record ∧ figure_data figure = [trace] ∧
    record !! "Indicator" = Some (VStr "entry_count") ∧
    name <$> table_columns = "Indicator" :: (Str.str <$> trace_x trace) ∧
    Forall2 (λ y total,
       let entries :=
         entry_count <$>
           filter (λ r, 2019 ≤ start_year r ∧ start_year r ≤ 2020 ∧
                        characteristic_value r = "All Students" ∧
                        subject_name r = "Physics" ∧ start_year r = y) sample_df in
       record !! Str.str y = Some (VFloat (mean (of_int <$> entries))) ∧
       int64 total ∧ (total - exact_sum entries) `mod` 2 ^ 64 = 0)
      (trace_x trace) (trace_y trace).
Proof.
  exact (table_chart_agree example_lib sample_raw sample_df 2019 2020
           "percentage" "All Students" "Physics" sample_df_prepared).
Defined.

(** * The page layout *)

(** ** Distinct values *)

Lemma elem_of_unique_go {A} `{EqDecision A} (x : A) (seen l : list A) :
  x ∈ unique_go seen l ↔ x ∈ l ∧ x ∉ seen.
Proof.
  revert seen. induction l as [|y l IH]; intros seen; simpl.
  - rewrite elem_of_nil. tauto.
  - destruct (decide (y ∈ seen)) as [Hy|Hy].
    + rewrite IH, elem_of_cons. split; [tauto|]. intros [[->|?] ?]; tauto.
    + rewrite !elem_of_cons, IH, not_elem_of_cons. split.
      * intros [->|(? & ? & ?)]; tauto.
      * intros [[->|?] ?]; [tauto|]. destruct (decide (x = y)); tauto.
Qed.

Lemma elem_of_unique {A} `{EqDecision A} (x : A) (l : list A) : x ∈ unique l ↔ x ∈ l.
Proof. unfold unique. rewrite elem_of_unique_go, elem_of_nil. tauto. Qed.

Lemma NoDup_unique_go {A} `{EqDecision A} (seen l : list A) : NoDup (unique_go seen l).
Proof.
  revert seen. induction l as [|y l IH]; intros seen; simpl; [constructor|].
  destruct (decide (y ∈ seen)); [done|]. constructor; [|done].
  rewrite elem_of_unique_go, not_elem_of_cons. tauto.
Qed.

Lemma unique_go_prefix {A} `{EqDecision A} (seen l1 l2 : list A) :
  unique_go seen l1 `prefix_of` unique_go seen (l1 ++ l2).
Proof.
  revert seen. induction l1 as [|x l1 IH]; intros seen; simpl.
  - apply prefix_nil.
  - destruct (decide (x ∈ seen)); [done|]. by apply prefix_cons.
Qed.

Lemma unique_cons {A} `{EqDecision A} (x : A) (l : list A) :
  unique (x :: l) = x :: unique_go [x] l.
Proof. reflexivity. Qed.

(** ** Sorting *)

Lemma sorted_insert_perm x l : sorted_insert x l ≡ₚ x :: l.
Proof.
  induction l as [|y l IH]; simpl; [done|].
  destruct (decide (x ≤ y)); [done|]. rewrite IH. apply Permutation_swap.
Qed.

Lemma sorted_perm l : sorted l ≡ₚ l.
Proof.
  unfold sorted. induction l as [|x l IH]; simpl; [done|].
  by rewrite sorted_insert_perm, IH.
Qed.

Lemma sorted_insert_sorted x l :
  StronglySorted Z.le l → StronglySorted Z.le (sorted_insert x l).
Proof.
  induction 1 as [|y l Hl IH Hall]; simpl.
  - repeat constructor.
  - destruct (decide (x ≤ y)).
    + constructor; [by constructor|]. constructor; [done|].
      eapply Forall_impl; [exact Hall|]. simpl. lia.
    + constructor; [done|]. apply Forall_forall. intros z Hz.
      rewrite sorted_insert_perm in Hz. apply elem_of_cons in Hz as [->|Hz]; [lia|].
      by eapply Forall_forall in Hall.
Qed.

Lemma sorted_sorted l : StronglySorted Z.le (sorted l).
Proof.
  unfold sorted. induction l; simpl; [constructor|by apply sorted_insert_sorted].
Qed.

Lemma sorted_strict l : NoDup l → StronglySorted Z.lt (sorted l).
Proof.
  intros Hnd. rewrite <-sorted_perm in Hnd.
  induction (sorted_sorted l) as [|x l' _ IH Hall]; [constructor|].
  apply NoDup_cons in Hnd as [Hx Hnd]. constructor; [by apply IH|].
  apply Forall_forall. intros y Hy.
  assert (x ≤ y) by by eapply Forall_forall in Hall.
  assert (x ≠ y) by by intros ->. lia.
Qed.

(** ** Least and greatest *)

Lemma foldl_min_spec x l :
  Forall (λ y, foldl Z.min x l ≤ y) (x :: l) ∧ foldl Z.min x l ∈ x :: l.
Proof.
  revert x. induction l as [|y l IH]; intros x; simpl.
  - split; [repeat constructor; lia|left].
  - destruct (IH (Z.min x y)) as [[H1 H2]%Forall_cons Hin]. split.
    + repeat constructor; [lia|lia|done].
    + apply elem_of_cons in Hin as [Heq|Hin]; [|by do 2 right].
      rewrite Heq. destruct (Z.min_spec x y) as [[_ ->]|[_ ->]]; [left|right; left].
Qed.

Lemma foldl_max_spec x l :
  Forall (λ y, y ≤ foldl Z.max x l) (x :: l) ∧ foldl Z.max x l ∈ x :: l.
Proof.
  revert x. induction l as [|y l IH]; intros x; simpl.
  - split; [repeat constructor; lia|left].
  - destruct (IH (Z.max x y)) as [[H1 H2]%Forall_cons Hin]. split.
    + repeat constructor; [lia|lia|done].
    + apply elem_of_cons in Hin as [Heq|Hin]; [|by do 2 right].
      rewrite Heq. destruct (Z.max_spec x y) as [[_ ->]|[_ ->]]; [right; left|left].
Qed.

Lemma py_min_spec l lo :
  py_min l = Ok lo → Forall (λ y, lo ≤ y) l ∧ lo ∈ l.
Proof. destruct l as [|x l]; [done|]. intros [= <-]. apply foldl_min_spec. Qed.

Lemma py_max_spec l hi :
  py_max l = Ok hi → Forall (λ y, y ≤ hi) l ∧ hi ∈ l.
Proof. destruct l as [|x l]; [done|]. intros [= <-]. apply foldl_max_spec. Qed.

(** ** The controls *)

Lemma layout_Ok df controls :
  layout df = Ok controls →
  ∃ start stop first_subject,
    py_min (start_year <$> df) = Ok start ∧ py_max (start_year <$> df) = Ok stop ∧
    Str.item (unique (subject_name <$> df)) 0 = Ok first_subject ∧
    controls
    = mkControls
        ((λ year, mkChoice year year) <$> sorted (unique (start_year <$> df))) start
        ((λ year, mkChoice year year) <$> sorted (unique (start_year <$> df))) stop
        [mkChoice "Percentage" "percentage"; mkChoice "Absolute" "absolute"]
        "percentage"
        ((λ c, mkChoice c c) <$> unique (characteristic_value <$> df)) "All Students"
        ((λ s, mkChoice s s) <$> unique (subject_name <$> df)) [first_subject].
Proof.
  unfold layout. intros H.
  apply bind_Ok in H as (start & Hstart & H).
  apply bind_Ok in H as (stop & Hstop & H).
  apply bind_Ok in H as (first_subject & Hfirst & H).
  injection H as <-. by exists start, stop, first_subject.
Qed.

Lemma layout_cons r df : ∃ controls, layout (r :: df) = Ok controls.
Proof.
  unfold layout. cbn [fmap list_fmap py_min py_max mbind result_bind].
  rewrite unique_cons. by eexists.
Qed.

Lemma choice_values {A} (l : list A) :
  choice_value <$> ((λ a, mkChoice a a) <$> l) = l.
Proof. rewrite <-list_fmap_compose. apply list_fmap_id. Qed.

Lemma choice_labels {A} (l : list A) :
  choice_label <$> ((λ a, mkChoice a a) <$> l) = l.
Proof. rewrite <-list_fmap_compose. apply list_fmap_id. Qed.

Lemma sample_layout : layout sample_df = Ok sample_controls.
Proof.
  unfold sample_controls, controls_or_default.
  pose proof sample_df_prepared as Hrows. apply prepare_rows in Hrows.
  destruct sample_df as [|r df]; [by apply Forall2_length in Hrows|].
  by destruct (layout_cons r df) as [controls ->].
Qed.

(** X15.  The layout cannot be built from a table without rows: the least
    start year of nothing raises [ValueError].  From every other table it is
    built. *)
Theorem layout_accepts (df_table : list Row) :
  layout [] = Err ValueError ∧
  ((∃ controls, layout df_table = Ok controls) ↔ df_table ≠ []).
Proof.
  split; [done|]. destruct df_table as [|r df]; split; try done.
  - by intros [controls ?].
  - intros _. apply layout_cons.
Qed.

(** X16.  Both date controls offer the same options: the start years of the
    table, each once and in ascending order, labelled with themselves.  The
    initial start date is the least and the initial end date the greatest of
    them, so every row of the table lies within the initial range. *)
Theorem layout_years (df_table : list Row) (controls : Controls) :
  layout df_table = Ok controls →
  let years := choice_value <$> start_options controls in
  end_options controls = start_options controls ∧
  choice_label <$> start_options controls = years ∧
  StronglySorted Z.lt years ∧
  (∀ y, y ∈ years ↔ ∃ r, r ∈ df_table ∧ start_year r = y) ∧
  start_value controls ∈ years ∧ end_value controls ∈ years ∧
  Forall (λ r, start_value controls ≤ start_year r ≤ end_value controls) df_table.
Proof.
  intros (start & stop & first_subject & Hstart & Hstop & _ & ->)%layout_Ok.
  cbn [start_options end_options start_value end_value].
  rewrite choice_values, choice_labels.
  apply py_min_spec in Hstart as [Hlo Hstart]. apply py_max_spec in Hstop as [Hhi Hstop].
  assert (∀ y, y ∈ sorted (unique (start_year <$> df_table)) ↔ y ∈ start_year <$> df_table)
    as Hyears.
  { intros y. by rewrite sorted_perm, elem_of_unique. }
  split; [done|]. split; [done|].
  split; [apply sorted_strict, NoDup_unique_go|].
  split.
  { intros y. rewrite Hyears, list_elem_of_fmap.
    split; intros (r & ? & ?); by exists r. }
  split; [by apply Hyears|]. split; [by apply Hyears|].
  apply Forall_forall. intros r Hr.
  assert (start_year r ∈ start_year <$> df_table) as Hy by by apply list_elem_of_fmap_2.
  split; [by eapply Forall_forall in Hlo|by eapply Forall_forall in Hhi].
Qed.

Lemma layout_years_sample :
  let years := choice_value <$> start_options sample_controls in
  end_options sample_controls = start_options sample_controls ∧
  choice_label <$> start_options sample_controls = years ∧
  StronglySorted Z.lt years ∧
  (∀ y, y ∈ years ↔ ∃ r, r ∈ sample_df ∧ start_year r = y) ∧
  start_value sample_controls ∈ years ∧ end_value sample_controls ∈ years ∧
  Forall (λ r, start_value sample_controls ≤ start_year r ≤ end_value sample_controls)
         sample_df.
Proof. exact (layout_years sample_df sample_controls sample_layout). Defined.

(** X17.  The characteristic and the subject controls offer the values of
    their columns, each once and labelled with itself.  The initial subject
    is the subject of the first row; the initial characteristic is the fixed
    text, which is among the options only when the table has such a row. *)
Theorem layout_filters (df_table : list Row) (controls : Controls) :
  layout df_table = Ok controls →
  let characteristics := choice_value <$> characteristic_options controls in
  let subjects := choice_value <$> subject_options controls in
  choice_label <$> characteristic_options controls = characteristics ∧
  choice_label <$> subject_options controls = subjects ∧
  NoDup characteristics ∧ NoDup subjects ∧
  (∀ c, c ∈ characteristics ↔ ∃ r, r ∈ df_table ∧ characteristic_value r = c) ∧
  (∀ s, s ∈ subjects ↔ ∃ r, r ∈ df_table ∧ subject_name r = s) ∧
  (∃ r rest, df_table = r :: rest ∧ subject_value controls = [subject_name r]) ∧
  characteristic_default controls = "All Students" ∧
  (characteristic_default controls ∈ characteristics ↔
   ∃ r, r ∈ df_table ∧ characteristic_value r = "All Students").
Proof.
  intros (start & stop & first_subject & _ & _ & Hfirst & ->)%layout_Ok.
  cbn [characteristic_options subject_options subject_value characteristic_default].
  rewrite !choice_values, !choice_labels.
  assert (∀ (f : Row → string) x,
            x ∈ unique (f <$> df_table) ↔ ∃ r, r ∈ df_table ∧ f r = x) as Hcol.
  { intros f x. rewrite elem_of_unique, list_elem_of_fmap.
    split; intros (r & ? & ?); by exists r. }
  repeat split; try done; try apply NoDup_unique_go; try by apply Hcol.
  destruct df_table as [|r rest]; [done|]. exists r, rest. split; [done|].
  cbn [fmap list_fmap] in Hfirst. rewrite unique_cons in Hfirst.
  by injection Hfirst as <-.
Qed.

Lemma layout_filters_sample :
  let characteristics := choice_value <$> characteristic_options sample_controls in
  let subjects := choice_value <$> subject_options sample_controls in
  choice_label <$> characteristic_options sample_controls = characteristics ∧
  choice_label <$> subject_options sample_controls = subjects ∧
  NoDup characteristics ∧ NoDup subjects ∧
  (∀ c, c ∈ characteristics ↔ ∃ r, r ∈ sample_df ∧ characteristic_value r = c) ∧
  (∀ s, s ∈ subjects ↔ ∃ r, r ∈ sample_df ∧ subject_name r = s) ∧
  (∃ r rest, sample_df = r :: rest ∧ subject_value sample_controls = [subject_name r]) ∧
  characteristic_default sample_controls = "All Students" ∧
  (characteristic_default sample_controls ∈ characteristics ↔
   ∃ r, r ∈ sample_df ∧ characteristic_value r = "All Students").
Proof. exact (layout_filters sample_df sample_controls sample_layout). Defined.

(** ** The layout and the table it is built from *)

Lemma layout_range df controls :
  layout df = Ok controls →
  Forall (λ r, start_value controls ≤ start_year r ≤ end_value controls) df.
Proof.
  intros (start & stop & first_subject & Hstart & Hstop & _ & ->)%layout_Ok.
  cbn [start_value end_value].
  apply py_min_spec in Hstart as [Hlo _]. apply py_max_spec in Hstop as [Hhi _].
  apply Forall_forall. intros r Hr.
  assert (start_year r ∈ start_year <$> df) as Hy by by apply list_elem_of_fmap_2.
  split; [by eapply Forall_forall in Hlo|by eapply Forall_forall in Hhi].
Qed.

Lemma layout_first_subject r df controls :
  layout (r :: df) = Ok controls → subject_value controls = [subject_name r].
Proof.
  intros (start & stop & first_subject & _ & _ & Hfirst & ->)%layout_Ok.
  cbn [fmap list_fmap] in Hfirst. rewrite unique_cons in Hfirst.
  by injection Hfirst as <-.
Qed.

Lemma filter_ext_in {A} (P Q : A → Prop) `{!∀ x, Decision (P x), !∀ x, Decision (Q x)}
    (l : list A) :
  Forall (λ x, P x ↔ Q x) l → filter P l = filter Q l.
Proof.
  induction 1 as [|x l Hx _ IH]; [done|]. rewrite !filter_cons, IH.
  destruct (decide (P x)), (decide (Q x)); tauto.
Qed.

(** X18.  Appending rows to the table keeps the controls in place: the
    subjects and characteristics already offered stay where they are and new
    ones follow them, every year already offered is still offered, the
    initial subject is the same, and the initial range can only widen. *)
Theorem layout_extends (df_table extra : list Row) (controls : Controls) :
  layout df_table = Ok controls →
  ∃ controls',
    layout (df_table ++ extra)%list = Ok controls' ∧
    (choice_value <$> subject_options controls)
      `prefix_of` (choice_value <$> subject_options controls') ∧
    (choice_value <$> characteristic_options controls)
      `prefix_of` (choice_value <$> characteristic_options controls') ∧
    (∀ y, y ∈ choice_value <$> start_options controls →
          y ∈ choice_value <$> start_options controls') ∧
    subject_value controls' = subject_value controls ∧
    start_value controls' ≤ start_value controls ∧
    end_value controls ≤ end_value controls'.
Proof.
  intros Hc. destruct df_table as [|r df]; [done|].
  destruct (layout_cons r (df ++ extra)%list) as [controls' Hc'].
  exists controls'. split; [done|].
  pose proof (layout_first_subject _ _ _ Hc) as Hs.
  pose proof (layout_first_subject _ _ _ Hc') as Hs'.
  rewrite Hs, Hs'. clear Hs Hs'.
  change (r :: df ++ extra)%list with ((r :: df) ++ extra)%list in Hc'.
  apply layout_Ok in Hc as (start & stop & first_subject & Hstart & Hstop & _ & ->).
  apply layout_Ok in Hc' as (start' & stop' & first_subject' & Hstart' & Hstop' & _ & ->).
  cbn [subject_options characteristic_options start_options start_value end_value].
  rewrite !choice_values, !fmap_app.
  apply py_min_spec in Hstart as [_ Hstart]. apply py_max_spec in Hstop as [_ Hstop].
  rewrite fmap_app in Hstart', Hstop'.
  apply py_min_spec in Hstart' as [Hlo _]. apply py_max_spec in Hstop' as [Hhi _].
  split; [apply unique_go_prefix|]. split; [apply unique_go_prefix|].
  split.
  { intros y. rewrite !sorted_perm, !elem_of_unique, elem_of_app. tauto. }
  split; [done|].
  split.
  - eapply Forall_forall in Hlo; [exact Hlo|]. apply elem_of_app. by left.
  - eapply Forall_forall in Hhi; [exact Hhi|]. apply elem_of_app. by left.
Qed.

Lemma layout_extends_sample :
  ∃ controls',
    layout (sample_df ++ example_df)%list = Ok controls' ∧
    (choice_value <$> subject_options sample_controls)
      `prefix_of` (choice_value <$> subject_options controls') ∧
    (choice_value <$> characteristic_options sample_controls)
      `prefix_of` (choice_value <$> characteristic_options controls') ∧
    (∀ y, y ∈ choice_value <$> start_options sample_controls →
          y ∈ choice_value <$> start_options controls') ∧
    subject_value controls' = subject_value sample_controls ∧
    start_value controls' ≤ start_value sample_controls ∧
    end_value sample_controls ≤ end_value controls'.
Proof. exact (layout_extends sample_df example_df sample_controls sample_layout). Defined.

(** X19.  The initial range is as wide as the table: a range that contains
    it gives the same summary table and the same chart. *)
Theorem initial_range_is_widest (df_table : list Row) (controls : Controls)
    (start_date end_date : Z) (indicator_type characteristic : string)
    (subjects : subjects_arg) :
  layout df_table = Ok controls →
  start_date ≤ start_value controls → end_value controls ≤ end_date →
  update_table df_table start_date end_date indicator_type characteristic subjects
  = update_table df_table (start_value controls) (end_value controls)
                 indicator_type characteristic subjects ∧
  update_line_chart df_table start_date end_date subjects characteristic
  = update_line_chart df_table (start_value controls) (end_value controls)
                      subjects characteristic.
Proof.
  intros Hrange%layout_range Hlo Hhi.
  assert (∀ subs,
    filter (mask start_date end_date characteristic subs) df_table
    = filter (mask (start_value controls) (end_value controls) characteristic subs)
             df_table) as Hfilter.
  { intros subs. apply filter_ext_in. eapply Forall_impl; [exact Hrange|].
    intros r Hr. unfold mask. simpl in Hr. intuition lia. }
  split.
  - unfold update_table. destruct subjects as [subject|subjects]; [done|].
    cbn [isin mbind result_bind]. by rewrite Hfilter.
  - unfold update_line_chart. by rewrite Hfilter.
Qed.

Lemma initial_range_is_widest_sample :
  update_table sample_df (start_value sample_controls - 1) (end_value sample_controls + 1)
               "absolute" "All Students" (Several ["Physics"])
  = update_table sample_df (start_value sample_controls) (end_value sample_controls)
                 "absolute" "All Students" (Several ["Physics"]) ∧
  update_line_chart sample_df (start_value sample_controls - 1)
                    (end_value sample_controls + 1) (Several ["Physics"]) "All Students"
  = update_line_chart sample_df (start_value sample_controls) (end_value sample_controls)
                      (Several ["Physics"]) "All Students".
Proof.
  apply (initial_range_is_widest sample_df sample_controls
           (start_value sample_controls - 1) (end_value sample_controls + 1)
           "absolute" "All Students" (Several ["Physics"]) sample_layout); lia.
Defined.

(** X20.  The first view of the page: with the initial values of the
    controls the table callback succeeds on a prepared table; it shows the
    entry count and the six percentages, and its year columns are the start
    years of the rows of the first row's subject that are marked "All
    Students". *)
Theorem initial_view (lib : Library)
    (raw : list RawRow) (df : list Row) (controls : Controls) :
  prepare lib raw = Ok df → layout df = Ok controls →
  ∃ first rest records table_columns years,
    df = first :: rest ∧
    update_table df (start_value controls) (end_value controls)
                 (indicator_value controls) (characteristic_default controls)
                 (Several (subject_value controls)) = Ok (records, table_columns) ∧
    name <$> table_columns = "Indicator" :: (Str.str <$> years) ∧
    StronglySorted Z.lt years ∧
    (∀ y, y ∈ years ↔
          ∃ r, r ∈ df ∧ characteristic_value r = "All Students" ∧
               subject_name r = subject_name first ∧ start_year r = y) ∧
    Forall2 (λ col record, record !! "Indicator" = Some (VStr col))
            ("entry_count" :: percentage_columns) records.
Proof.
  intros Hdf%prepared_numeric Hc. destruct df as [|first rest]; [done|].
  pose proof (layout_range _ _ Hc) as Hrange.
  pose proof (layout_first_subject _ _ _ Hc) as Hs. rewrite Hs.
  apply layout_Ok in Hc as (start & stop & first_subject & _ & _ & _ & ->).
  cbn [start_value end_value indicator_value characteristic_default] in *.
  set (df := first :: rest) in *.
  set (filtered := filter (mask start stop "All Students" [subject_name first]) df).
  exists first, rest. eexists _, _, (year_columns filtered).
  split; [done|]. split; [by apply update_table_closed|]. fold filtered.
  split. { rewrite <-!list_fmap_compose. by rewrite list_fmap_id. }
  split; [apply group_keys_sorted|]. split.
  - intros y. rewrite elem_of_year_columns. unfold filtered. split.
    + intros (r & [(_ & _ & Hch & Hsub) Hr]%list_elem_of_filter & Hy).
      apply list_elem_of_singleton in Hsub. by exists r.
    + intros (r & Hr & Hch & Hsub & Hy). exists r. split; [|done].
      apply list_elem_of_filter. split; [|done].
      eapply Forall_forall in Hrange; [|exact Hr]. simpl in Hrange.
      unfold mask. rewrite list_elem_of_singleton. intuition lia.
  - apply Forall2_fmap_r, Forall_Forall2_diag, Forall_forall.
    intros col _. apply table_record_indicator.
Qed.

Lemma initial_view_sample :
  ∃ first rest records table_columns years,
    sample_df = first :: rest ∧
    update_table sample_df (start_value sample_controls) (end_value sample_controls)
                 (indicator_value sample_controls) (characteristic_default sample_controls)
                 (Several (subject_value sample_controls)) = Ok (records, table_columns) ∧
    name <$> table_columns = "Indicator" :: (Str.str <$> years) ∧
    StronglySorted Z.lt years ∧
    (∀ y, y ∈ years ↔
          ∃ r, r ∈ sample_df ∧ characteristic_value r = "All Students" ∧
               subject_name r = subject_name first ∧ start_year r = y) ∧
    Forall2 (λ col record, record !! "Indicator" = Some (VStr col))
            ("entry_count" :: percentage_columns) records.
Proof.
  exact (initial_view example_lib sample_raw sample_df sample_controls
           sample_df_prepared sample_layout).
Defined.

(** ** Further properties of the callbacks *)

(** X21.  The table callback tells the indicator types apart by one test:
    every type other than "percentage" gives the table of the absolute
    numbers. *)
Theorem update_table_other_type (df : list Row) (start_date end_date : Z)
    (indicator_type characteristic : string) (subjects : subjects_arg) :
  indicator_type ≠ "percentage" →
  update_table df start_date end_date indicator_type characteristic subjects
  = update_table df start_date end_date "absolute" characteristic subjects.
Proof.
  intros Htype. unfold update_table. by rewrite !decide_False by done.
Qed.

Lemma update_table_other_type_sample :
  update_table sample_df 2019 2020 "" "All Students" (Several ["Physics"])
  = update_table sample_df 2019 2020 "absolute" "All Students" (Several ["Physics"]).
Proof.
  by apply (update_table_other_type sample_df 2019 2020 "" "All Students"
              (Several ["Physics"])).
Defined.

Lemma filter_subject_alone start_date end_date characteristic subjects subject
    (df : list Row) :
  subject ∈ subjects →
  filter (λ r, subject_name r = subject)
         (filter (mask start_date end_date characteristic subjects) df)
  = filter (λ r, subject_name r = subject)
           (filter (mask start_date end_date characteristic [subject]) df).
Proof.
  intros Hsubject. induction df as [|r df IH]; [done|]. rewrite !(filter_cons _ r).
  destruct (decide (mask start_date end_date characteristic subjects r))
    as [(H1 & H2 & H3 & H4)|Hno];
  destruct (decide (mask start_date end_date characteristic [subject] r))
    as [(H1' & H2' & H3' & H4')|Hno']; rewrite ?filter_cons, ?IH; try done.
  - rewrite decide_False; [done|]. intros Hs. apply Hno'. unfold mask.
    rewrite list_elem_of_singleton. done.
  - apply list_elem_of_singleton in H4'. rewrite decide_True by done.
    destruct Hno. unfold mask. by rewrite H4'.
Qed.

(** X22.  The lines of the chart do not depend on each other: the line of a
    subject in a chart of several subjects is the line of the chart of that
    subject alone, under the same layout. *)
Theorem update_line_chart_by_subject (df : list Row) (start_date end_date : Z)
    (subjects : list string) (characteristic : string) :
  ∃ figure,
    update_line_chart df start_date end_date (Several subjects) characteristic
    = Ok figure ∧
    Forall2 (λ subject trace,
       update_line_chart df start_date end_date (Scalar subject) characteristic
       = Ok (mkFigure [trace] (figure_layout figure)))
      subjects (figure_data figure).
Proof.
  eexists. split; [reflexivity|]. cbn [figure_data figure_layout].
  apply Forall2_fmap_r, Forall_Forall2_diag, Forall_forall. intros subject Hsubject.
  unfold compose, update_line_chart. cbn [fmap list_fmap].
  by rewrite (filter_subject_alone _ _ _ subjects subject).
Qed.
